(** * A structured-logging facade over zap: context propagation, tag
      rendering, the severity gate and the global logger registry.

    The development embeds the two source files of package [logger]
    (the context helpers and the logger/emission/gate file) together with
    the parts of the Go runtime and of the zap library they call into. *)

From Stdlib Require Import ZArith Lia Ascii.
From stdpp Require Import base list strings pretty relations.

Open Scope string_scope.
Open Scope list_scope.

(** ** The Go runtime pieces the package relies on *)

(** [interface{}] values that travel through the variadic argument lists
    ([kvs ...interface{}], [args ...interface{}]) and through the
    change-notification callback. *)
#[warnings="-register-all"]
Inductive any : Type :=
| AString (s : string)
| AInt (n : Z)
| ABool (b : bool)
| ANil
| ATime (t : Z)
| AField (key : string) (val : any)
| AError (msg : string)
| AArray (l : list any).

(** The dynamic type name, as [%T] prints it. *)
Definition typeName (v : any) : string :=
  match v with
  | AString _ => "string"
  | AInt _ => "int"
  | ABool _ => "bool"
  | ANil => "<nil>"
  | ATime _ => "time.Time"
  | AField _ _ => "zapcore.Field"
  | AError _ => "*errors.errorString"
  | AArray _ => "[]interface {}"
  end.

(** Package [fmt] and the slice growth policy of the runtime are taken as
    given: the facade only passes arguments through to them. *)
Class Platform := {
  (** [fmt.Sprint(args...)] *)
  Sprint : list any -> string;
  (** [fmt.Sprintf(format, args...)] *)
  Sprintf : string -> list any -> string;
  (** the capacity [growslice] picks for an array that has to hold
      [newLen] elements, given the old capacity *)
  growcap : forall (oldCap newLen : nat), nat;
  growcap_fits : forall oldCap newLen, newLen <= growcap oldCap newLen
}.

Module strings.

(** [strings.Builder]: the bytes written so far. *)
Definition Builder := string.
Definition zero : Builder := "".
Definition WriteRune (b : Builder) (r : Ascii.ascii) : Builder := b +:+ String r "".
Definition WriteString (b : Builder) (s : string) : Builder := b +:+ s.
Definition String (b : Builder) : string := b.

Fixpoint HasPrefix (s pre : string) {struct pre} : bool :=
  match pre, s with
  | EmptyString, _ => true
  | String.String c pre', String.String d s' =>
      if Ascii.eqb c d then HasPrefix s' pre' else false
  | String.String _ _, EmptyString => false
  end.

(** Left-to-right, non-overlapping replacement of a non-empty [old];
    [skip] counts the bytes of the current match still to be consumed. *)
Fixpoint replace (old new : string) (skip : nat) (s : string) : string :=
  match s with
  | EmptyString => EmptyString
  | String.String c s' =>
      match skip with
      | S k => replace old new k s'
      | O =>
          if HasPrefix s old
          then new +:+ replace old new (String.length old - 1) s'
          else String.String c (replace old new 0 s')
      end
  end.

(** With an empty [old] a match is found before every byte and at the
    end (on ASCII input, where bytes and runes coincide). *)
Fixpoint intersperse (new : string) (s : string) : string :=
  match s with
  | EmptyString => new
  | String.String c s' => new +:+ String.String c (intersperse new s')
  end.

(** [strings.ReplaceAll(s, old, new)] *)
Definition ReplaceAll (s old new : string) : string :=
  if String.eqb old new then s
  else if String.eqb old "" then intersperse new s
  else replace old new 0 s.

End strings.

(** Go slices of strings.  A slice header points into a backing array that
    lives in a store shared by every header derived from it. *)
Module slice.

Abbreviation Store := (list (list string)) (only parsing).

Record t := mk { ptr : nat; off : nat; len : nat; cap : nat }.

(** The nil slice: no array, length and capacity zero. *)
Definition nil : t := mk 0 0 0 0.

Definition array (h : Store) (p : nat) : list string := default [] (h !! p).

(** The elements a header denotes: [s[0], ..., s[len-1]]. *)
Definition elems (h : Store) (s : t) : list string :=
  take (len s) (drop (off s) (array h (ptr s))).

(** [off + cap] stays within the backing array. *)
Definition wf (h : Store) (s : t) : Prop :=
  len s <= cap s /\ off s + cap s <= length (array h (ptr s)).

(** Store [xs] into array [p] from index [i] on. *)
Fixpoint write (h : Store) (p i : nat) (xs : list string) : Store :=
  match xs with
  | [] => h
  | x :: xs' => write (alter (fun a => <[i:=x]> a) p h) p (S i) xs'
  end.

(** A fresh array of exactly these elements: the slice a call site builds
    for its variadic arguments ([nil] when there are none). *)
Definition literal (h : Store) (xs : list string) : t * Store :=
  match xs with
  | [] => (nil, h)
  | _ => (mk (length h) 0 (length xs) (length xs), h ++ [xs])
  end.

(** The built-in [append(s, xs...)]: when the capacity suffices the
    elements are written into the shared backing array behind [len];
    otherwise a larger array is allocated and the old elements copied. *)
Definition append `{Platform} (h : Store) (s : t) (xs : list string) : t * Store :=
  let newLen := len s + length xs in
  if (newLen <=? cap s)%nat
  then (mk (ptr s) (off s) newLen (cap s), write h (ptr s) (off s + len s) xs)
  else
    let newcap := growcap (cap s) newLen in
    (mk (length h) 0 newLen newcap,
     h ++ [elems h s ++ xs ++ replicate (newcap - newLen) ""]).

(** [nextslicecap] of the Go runtime (before rounding up to an allocator
    size class): double small arrays, grow large ones by a quarter. *)
Fixpoint grow_quarter (fuel newcap newLen : nat) : nat :=
  match fuel with
  | O => newLen
  | S fuel' =>
      let newcap := newcap + (newcap + 3 * 256) / 4 in
      if (newLen <=? newcap)%nat then newcap else grow_quarter fuel' newcap newLen
  end.

Definition nextslicecap (oldCap newLen : nat) : nat :=
  let doublecap := oldCap + oldCap in
  if (doublecap <? newLen)%nat then newLen
  else if (oldCap <? 256)%nat then doublecap
  else grow_quarter newLen oldCap newLen.

End slice.

(** ** The zap library, as far as the package drives it *)

Module zapcore.

(** [type Level int8], from [DebugLevel = -1] up to [FatalLevel = 5]. *)
Definition Level := Z.
Definition DebugLevel : Level := (-1)%Z.
Definition InfoLevel : Level := 0%Z.
Definition WarnLevel : Level := 1%Z.
Definition ErrorLevel : Level := 2%Z.
Definition DPanicLevel : Level := 3%Z.
Definition PanicLevel : Level := 4%Z.
Definition FatalLevel : Level := 5%Z.

(** [func (l Level) Enabled(lvl Level) bool { return lvl >= l }] *)
Definition Level_Enabled (l lvl : Level) : bool := (lvl >=? l)%Z.

Definition Level_String (l : Level) : string :=
  if (l =? DebugLevel)%Z then "debug"
  else if (l =? InfoLevel)%Z then "info"
  else if (l =? WarnLevel)%Z then "warn"
  else if (l =? ErrorLevel)%Z then "error"
  else if (l =? DPanicLevel)%Z then "dpanic"
  else if (l =? PanicLevel)%Z then "panic"
  else if (l =? FatalLevel)%Z then "fatal"
  else "Level(" +:+ pretty l +:+ ")".

(** A structured field: [zap.Any(key, value)], [zap.String(key, s)]. *)
Record Field := mkField { Key : string; Interface : any }.

Record Entry := mkEntry { Level_ : Level; Time : Z; Message : string }.

Inductive LevelEncoder := LowercaseLevelEncoder | LowercaseColorLevelEncoder.

Definition esc : string := String.String (Ascii.ascii_of_nat 27) "".

(** The ANSI colour of a level: magenta, blue, yellow, and red from
    error upwards and for unknown levels. *)
Definition levelColor (l : Level) : string :=
  if (l =? DebugLevel)%Z then "35"
  else if (l =? InfoLevel)%Z then "34"
  else if (l =? WarnLevel)%Z then "33"
  else "31".

Definition encodeLevel (e : LevelEncoder) (l : Level) : string :=
  match e with
  | LowercaseLevelEncoder => Level_String l
  | LowercaseColorLevelEncoder =>
      esc +:+ "[" +:+ levelColor l +:+ "m" +:+ Level_String l +:+ esc +:+ "[0m"
  end.

Record EncoderConfig := mkEncoderConfig {
  MessageKey : string;
  LevelKey : string;
  TimeKey : string;
  NameKey : string;
  CallerKey : string;
  StacktraceKey : string;
  EncodeLevel : LevelEncoder
}.

Inductive EncoderKind := JSON | Console.

(** An encoder: its configuration and the fields accumulated by [With]. *)
Record Encoder := mkEncoder {
  kind : EncoderKind;
  config : EncoderConfig;
  context : list Field
}.

Definition NewJSONEncoder (cfg : EncoderConfig) : Encoder := mkEncoder JSON cfg [].
Definition NewConsoleEncoder (cfg : EncoderConfig) : Encoder := mkEncoder Console cfg [].

(** One encoded record: the keyed entries in the order they are written. *)
Record Line := mkLine { encoding : EncoderKind; pairs : list (string * any) }.

Definition keyed (key : string) (v : any) : list (string * any) :=
  if String.eqb key "" then [] else [(key, v)].

Definition fieldPairs (fs : list Field) : list (string * any) :=
  map (fun f => (Key f, Interface f)) fs.

(** [EncodeEntry]: level, time and message under their configured keys
    (each left out when its key is empty; the console encoder puts the
    time first), then the encoder's own fields, then the call's fields.
    Logger name, caller and stack trace are never set by this package. *)
Definition EncodeEntry (enc : Encoder) (ent : Entry) (fields : list Field) : Line :=
  let cfg := config enc in
  let lvl := keyed (LevelKey cfg) (AString (encodeLevel (EncodeLevel cfg) (Level_ ent))) in
  let tm := keyed (TimeKey cfg) (ATime (Time ent)) in
  let msg := keyed (MessageKey cfg) (AString (Message ent)) in
  let head := match kind enc with JSON => lvl ++ tm | Console => tm ++ lvl end in
  mkLine (kind enc) (head ++ msg ++ fieldPairs (context enc) ++ fieldPairs fields).

Inductive WriteSyncer := Stdout | Stderr.

(** The two implementations of the [Core] interface in this program:
    zapcore's own [ioCore] and the package's [coreWithLevel], which
    embeds a [Core] and carries its own level. *)
Inductive Core :=
| ioCore (enab : Level) (enc : Encoder) (out : WriteSyncer)
| coreWithLevel (Core_ : Core) (level : Level).

Definition NewCore (enc : Encoder) (ws : WriteSyncer) (enab : Level) : Core :=
  ioCore enab enc ws.

Inductive CheckWriteAction := WriteThenNoop | WriteThenPanic | WriteThenFatal.

Record CheckedEntry := mkCheckedEntry {
  ce_Entry : Entry;
  should : CheckWriteAction;
  cores : list Core
}.

(** [ce.AddCore(ent, core)] on a possibly nil [ce]. *)
Definition AddCore (ce : option CheckedEntry) (ent : Entry) (c : Core) : option CheckedEntry :=
  match ce with
  | None => Some (mkCheckedEntry ent WriteThenNoop [c])
  | Some ce => Some (mkCheckedEntry (ce_Entry ce) (should ce) (cores ce ++ [c]))
  end.

(** [ce.After(ent, hook)] on a possibly nil [ce]. *)
Definition After (ce : option CheckedEntry) (ent : Entry) (a : CheckWriteAction) : option CheckedEntry :=
  match ce with
  | None => Some (mkCheckedEntry ent a [])
  | Some ce => Some (mkCheckedEntry (ce_Entry ce) a (cores ce))
  end.

(** What the process has written so far, and the wall clock. *)
Record World := mkWorld { clock : Z; stdout : list Line; stderr : list Line }.

Definition emit (ws : WriteSyncer) (ln : Line) (w : World) : World :=
  match ws with
  | Stdout => mkWorld (clock w) (stdout w ++ [ln]) (stderr w)
  | Stderr => mkWorld (clock w) (stdout w) (stderr w ++ [ln])
  end.

(** [Enabled]: [ioCore] asks its level enabler; the package's
    [(c *coreWithLevel) Enabled] is [c.level.Enabled(l)]. *)
Definition Enabled (c : Core) (l : Level) : bool :=
  match c with
  | ioCore enab _ _ => Level_Enabled enab l
  | coreWithLevel _ level => Level_Enabled level l
  end.

(** [With]: [ioCore] clones itself and adds the fields to its encoder;
    [(c *coreWithLevel) With] wraps [c.Core.With(fields)] with [c.level]. *)
Fixpoint With (c : Core) (fields : list Field) : Core :=
  match c with
  | ioCore enab enc out =>
      ioCore enab (mkEncoder (kind enc) (config enc) (context enc ++ fields)) out
  | coreWithLevel inner level => coreWithLevel (With inner fields) level
  end.

(** [Check], the same in both implementations:
    [if c.Enabled(ent.Level) { return ce.AddCore(ent, c) }; return ce]. *)
Definition Check (c : Core) (ent : Entry) (ce : option CheckedEntry) : option CheckedEntry :=
  if Enabled c (Level_ ent) then AddCore ce ent c else ce.

(** [Write]: [ioCore] encodes the entry and writes it to its sink;
    [coreWithLevel] does not define [Write], so the embedded core's is
    promoted. *)
Fixpoint Write (c : Core) (ent : Entry) (fields : list Field) (w : World) : World :=
  match c with
  | ioCore _ enc out => emit out (EncodeEntry enc ent fields) w
  | coreWithLevel inner _ => Write inner ent fields w
  end.

(** The fields a core has accumulated through [With]. *)
Fixpoint fields (c : Core) : list Field :=
  match c with
  | ioCore _ enc _ => context enc
  | coreWithLevel inner _ => fields inner
  end.

End zapcore.

Module zap.

Record Logger := mkLogger { core : zapcore.Core; errorOutput : zapcore.WriteSyncer }.

Record SugaredLogger := mkSugaredLogger { base : Logger }.

Inductive Option :=
| ErrorOutput (w : zapcore.WriteSyncer)
| WrapCore (f : zapcore.Core -> zapcore.Core)
| Fields (fs : list zapcore.Field).

Definition apply (o : Option) (log : Logger) : Logger :=
  match o with
  | ErrorOutput w => mkLogger (core log) w
  | WrapCore f => mkLogger (f (core log)) (errorOutput log)
  | Fields fs => mkLogger (zapcore.With (core log) fs) (errorOutput log)
  end.

Definition WithOptions (log : Logger) (opts : list Option) : Logger :=
  fold_left (fun l o => apply o l) opts log.

(** [zap.New(core, options...)]: errors of the logger itself go to
    standard error unless an option says otherwise. *)
Definition New (c : zapcore.Core) (opts : list Option) : Logger :=
  WithOptions (mkLogger c zapcore.Stderr) opts.

Definition Any (key : string) (value : any) : zapcore.Field := zapcore.mkField key value.
Definition String (key : string) (val : string) : zapcore.Field :=
  zapcore.mkField key (AString val).
Definition Error (err : string) : zapcore.Field := zapcore.mkField "error" (AError err).
Definition Array (key : string) (l : list any) : zapcore.Field := zapcore.mkField key (AArray l).

(** [log.With(fields...)] *)
Definition With (log : Logger) (fields : list zapcore.Field) : Logger :=
  match fields with
  | [] => log
  | _ => mkLogger (zapcore.With (core log) fields) (errorOutput log)
  end.

Definition Sugar (log : Logger) : SugaredLogger := mkSugaredLogger log.
Definition Desugar (s : SugaredLogger) : Logger := base s.

(** How a logging call ends: it returns, or the process exits (fatal),
    or the goroutine panics (panic level). *)
Inductive outcome := Returns (w : zapcore.World) | Exits (w : zapcore.World) | Panics (w : zapcore.World).

Definition world_of (o : outcome) : zapcore.World :=
  match o with Returns w | Exits w | Panics w => w end.

(** [log.check(lvl, msg)] *)
Definition check (log : Logger) (lvl : zapcore.Level) (msg : string) (w : zapcore.World)
  : option zapcore.CheckedEntry :=
  if (lvl <? zapcore.DPanicLevel)%Z && negb (zapcore.Enabled (core log) lvl) then None
  else
    let ent := zapcore.mkEntry lvl (zapcore.clock w) msg in
    let ce := zapcore.Check (core log) ent None in
    if (lvl =? zapcore.PanicLevel)%Z then zapcore.After ce ent zapcore.WriteThenPanic
    else if (lvl =? zapcore.FatalLevel)%Z then zapcore.After ce ent zapcore.WriteThenFatal
    else ce.

(** [ce.Write(fields...)]: every core that accepted the entry writes it,
    then the terminal action runs. *)
Definition Write (ce : zapcore.CheckedEntry) (fields : list zapcore.Field) (w : zapcore.World) : outcome :=
  let w' := fold_left (fun w c => zapcore.Write c (zapcore.ce_Entry ce) fields w)
                      (zapcore.cores ce) w in
  match zapcore.should ce with
  | zapcore.WriteThenNoop => Returns w'
  | zapcore.WriteThenPanic => Panics w'
  | zapcore.WriteThenFatal => Exits w'
  end.

(** The leveled methods of [*Logger]:
    [if ce := log.check(lvl, msg); ce != nil { ce.Write(fields...) }]. *)
Definition logAt (lvl : zapcore.Level) (log : Logger) (msg : string)
           (fields : list zapcore.Field) (w : zapcore.World) : outcome :=
  match check log lvl msg w with
  | Some ce => Write ce fields w
  | None => Returns w
  end.

Definition Logger_Warn := logAt zapcore.WarnLevel.
Definition Logger_Error := logAt zapcore.ErrorLevel.

(** [getMessage(template, fmtArgs)] *)
Definition getMessage `{Platform} (template : string) (fmtArgs : list any) : string :=
  match fmtArgs with
  | [] => template
  | _ =>
      if negb (String.eqb template "") then Sprintf template fmtArgs
      else match fmtArgs with
           | [AString str] => str
           | _ => Sprint fmtArgs
           end
  end.

(** The loop of [sweetenFields]: strongly typed fields and errors take
    one position, key-value pairs two; a dangling key and pairs with a
    non-string key are reported through the logger itself. *)
Fixpoint sweeten (log : Logger) (args : list any) (i : Z) (seenError : bool)
         (fields : list zapcore.Field) (invalid : list any) (w : zapcore.World)
  : list zapcore.Field * list any * zapcore.World :=
  match args with
  | [] => (fields, invalid, w)
  | AField k v :: rest =>
      sweeten log rest (i + 1)%Z seenError (fields ++ [zapcore.mkField k v]) invalid w
  | AError e :: rest =>
      if seenError
      then sweeten log rest (i + 1)%Z true fields invalid
             (world_of (Logger_Error log "Multiple errors without a key." [Error e] w))
      else sweeten log rest (i + 1)%Z true (fields ++ [Error e]) invalid w
  | [key] =>
      (fields, invalid,
       world_of (Logger_Error log "Ignored key without a value." [Any "ignored" key] w))
  | key :: val :: rest =>
      match key with
      | AString keyStr =>
          sweeten log rest (i + 2)%Z seenError (fields ++ [Any keyStr val]) invalid w
      | _ =>
          sweeten log rest (i + 2)%Z seenError fields
                  (invalid ++ [AArray [AInt i; key; val]]) w
      end
  end.

Definition sweetenFields (s : SugaredLogger) (args : list any) (w : zapcore.World)
  : list zapcore.Field * zapcore.World :=
  match args with
  | [] => ([], w)
  | _ =>
      let '(fields, invalid, w) := sweeten (base s) args 0 false [] [] w in
      match invalid with
      | [] => (fields, w)
      | _ => (fields,
              world_of (Logger_Error (base s) "Ignored key-value pairs with non-string keys."
                              [Array "invalid" invalid] w))
      end
  end.

(** [s.log(lvl, template, fmtArgs, context)] *)
Definition log `{Platform} (s : SugaredLogger) (lvl : zapcore.Level) (template : string)
           (fmtArgs context : list any) (w : zapcore.World) : outcome :=
  if (lvl <? zapcore.DPanicLevel)%Z && negb (zapcore.Enabled (core (base s)) lvl) then Returns w
  else
    let msg := getMessage template fmtArgs in
    match check (base s) lvl msg w with
    | Some ce => let '(fields, w') := sweetenFields s context w in Write ce fields w'
    | None => Returns w
    end.

(** The methods of [*SugaredLogger]. *)
Module Sugared.
Section Methods.
Context `{Platform}.

Definition Debug s args := log s zapcore.DebugLevel "" args [].
Definition Info s args := log s zapcore.InfoLevel "" args [].
Definition Warn s args := log s zapcore.WarnLevel "" args [].
Definition Error s args := log s zapcore.ErrorLevel "" args [].
Definition Fatal s args := log s zapcore.FatalLevel "" args [].

Definition Debugf s template args := log s zapcore.DebugLevel template args [].
Definition Infof s template args := log s zapcore.InfoLevel template args [].
Definition Warnf s template args := log s zapcore.WarnLevel template args [].
Definition Errorf s template args := log s zapcore.ErrorLevel template args [].
Definition Fatalf s template args := log s zapcore.FatalLevel template args [].

Definition Debugw s msg keysAndValues := log s zapcore.DebugLevel msg [] keysAndValues.
Definition Infow s msg keysAndValues := log s zapcore.InfoLevel msg [] keysAndValues.
Definition Warnw s msg keysAndValues := log s zapcore.WarnLevel msg [] keysAndValues.
Definition Errorw s msg keysAndValues := log s zapcore.ErrorLevel msg [] keysAndValues.
Definition Fatalw s msg keysAndValues := log s zapcore.FatalLevel msg [] keysAndValues.
End Methods.
End Sugared.

End zap.

(** ** Package context: an immutable chain of key/value nodes *)

Module context.

(** The package's two unexported key types, and keys of other packages. *)
Inductive key := contextKey | contextTags | otherKey (n : nat).

(** What a node can hold: a [*zap.SugaredLogger] (possibly nil), a
    [[]string] slice header, or a value of some other type. *)
Inductive value :=
| ValLogger (l : option zap.SugaredLogger)
| ValTags (tags : slice.t)
| ValOther (v : any).

Inductive Context :=
| Background
| WithValue (parent : Context) (k : key) (val : value).

Definition key_eqb (a b : key) : bool :=
  match a, b with
  | contextKey, contextKey => true
  | contextTags, contextTags => true
  | otherKey n, otherKey m => (n =? m)%nat
  | _, _ => false
  end.

(** [ctx.Value(key)]: the value of the nearest node carrying [key]. *)
Fixpoint Value (ctx : Context) (k : key) : option value :=
  match ctx with
  | Background => None
  | WithValue parent k' val => if key_eqb k' k then Some val else Value parent k
  end.

End context.

(** ** Package logger *)

Definition tagsName : string := "hashtags".

Record Config := mkConfig {
  LogLevel : string;
  MessageKey : string;
  LevelKey : string;
  TimeKey : string;
  AppName : string;
  Host : string;
  Version : string;
  DevMode : bool
}.

(** The two collaborators whose results the package only inspects:
    the level parser of zap and the environment loader. *)
Class Collaborators := {
  (** [zap.AtomicLevel.UnmarshalText]: the level, or the error's text *)
  UnmarshalText : string -> zapcore.Level + string;
  (** [envconfig.InitWithPrefix(&cfg, prefix)]: the loaded [cfg.Log], or
      the error's text *)
  InitWithPrefix : string -> Config + string
}.

(** The process state the package reads and writes: the global logger
    (a pointer, nil before [init]), the backing arrays of tag slices, and
    the output written so far. *)
Record State := mkState {
  global : option zap.SugaredLogger;
  heap : slice.Store;
  world : zapcore.World
}.

Definition setWorld (st : State) (w : zapcore.World) : State :=
  mkState (global st) (heap st) w.

Definition setHeap (st : State) (h : slice.Store) : State :=
  mkState (global st) h (world st).

(** How a call into the package ends: it returns a value, the process
    exits (fatal level), or it panics (a nil logger is dereferenced). *)
Inductive result (A : Type) :=
| Ok (a : A) (st : State)
| Exit (st : State)
| Panic (st : State).
Arguments Ok {A} a st.
Arguments Exit {A} st.
Arguments Panic {A} st.

Definition loggerContextKey : context.key := context.contextKey.
Definition loggerContextTags : context.key := context.contextTags.

Definition level : zapcore.Level := zapcore.InfoLevel.

Definition defaultCfg : Config :=
  {| LogLevel := "info";
     MessageKey := "message";
     LevelKey := "severity";
     TimeKey := "timestamp";
     AppName := "app";
     Host := "localhost";
     Version := "0.0.0";
     DevMode := false |}.

Definition setVersion (cfg : Config) (version : string) : Config :=
  {| LogLevel := LogLevel cfg;
     MessageKey := MessageKey cfg;
     LevelKey := LevelKey cfg;
     TimeKey := TimeKey cfg;
     AppName := AppName cfg;
     Host := Host cfg;
     Version := version;
     DevMode := DevMode cfg |}.

Definition getZapFields (config : Config) : list zapcore.Field :=
  let fields := [] in
  let fields :=
    if negb (String.eqb (Version config) "")
    then fields ++ [zap.String "version" (Version config)] else fields in
  let fields :=
    if negb (String.eqb (AppName config) "")
    then fields ++ [zap.String "application_name" (AppName config)] else fields in
  let fields :=
    if negb (String.eqb (Host config) "")
    then fields ++ [zap.String "host" (Host config)] else fields in
  fields.

(** [New]: a nil [lvl] falls back to the package's default level. *)
Definition New (lvl : option zapcore.Level) (cfg : Config) (options : list zap.Option)
  : zap.SugaredLogger :=
  let lvl := match lvl with None => level | Some lvl => lvl end in
  let sink := zapcore.Stdout in
  let options := options ++ [zap.ErrorOutput sink] in
  let config encodeLevel :=
    {| zapcore.TimeKey := TimeKey cfg;
       zapcore.LevelKey := LevelKey cfg;
       zapcore.NameKey := "logger";
       zapcore.CallerKey := "caller";
       zapcore.MessageKey := MessageKey cfg;
       zapcore.StacktraceKey := "stacktrace";
       zapcore.EncodeLevel := encodeLevel |} in
  let encoder :=
    if DevMode cfg
    then zapcore.NewConsoleEncoder (config zapcore.LowercaseColorLevelEncoder)
    else zapcore.NewJSONEncoder (config zapcore.LowercaseLevelEncoder) in
  zap.Sugar (zap.With (zap.New (zapcore.NewCore encoder sink lvl) options) (getZapFields cfg)).

(** [Logger]: the global logger, read under the read lock. *)
Definition Logger (st : State) : option zap.SugaredLogger := global st.

(** [SetLogger]: the global logger, replaced under the write lock. *)
Definition SetLogger (l : option zap.SugaredLogger) (st : State) : State :=
  mkState l (heap st) (world st).

(** [init] *)
Definition init (st : State) : State := SetLogger (Some (New (Some level) defaultCfg [])) st.

(** [WithLevel]: the option that wraps a logger's core in the gate. *)
Definition WithLevel (lvl : zapcore.Level) : zap.Option :=
  zap.WrapCore (fun core => zapcore.coreWithLevel core lvl).

(** *** Context helpers *)

Definition ToContext (ctx : context.Context) (l : option zap.SugaredLogger) : context.Context :=
  context.WithValue ctx loggerContextKey (context.ValLogger l).

(** [FromContext] reads the variable [global] directly. *)
Definition FromContext (ctx : context.Context) (st : State) : option zap.SugaredLogger :=
  let l := global st in
  match context.Value ctx loggerContextKey with
  | Some (context.ValLogger logger) => logger
  | _ => l
  end.

(** [ctx.Value(loggerContextTags).([]string)] *)
Definition tagsOf (ctx : context.Context) : option slice.t :=
  match context.Value ctx loggerContextTags with
  | Some (context.ValTags v) => Some v
  | _ => None
  end.

Definition ContextWithTags `{Platform} (ctx : context.Context) (tags : slice.t) (st : State)
  : context.Context * State :=
  match tagsOf ctx with
  | Some v =>
      let '(tags, h) := slice.append (heap st) v (slice.elems (heap st) tags) in
      (context.WithValue ctx loggerContextTags (context.ValTags tags), setHeap st h)
  | None => (context.WithValue ctx loggerContextTags (context.ValTags tags), st)
  end.

(** A call [ContextWithTags(ctx, "t1", ..., "tn")] with the tags written
    out: the call site builds the variadic slice first. *)
Definition ContextWithTagList `{Platform} (ctx : context.Context) (tags : list string) (st : State)
  : context.Context * State :=
  let '(s, h) := slice.literal (heap st) tags in
  ContextWithTags ctx s (setHeap st h).

Definition prepareTags (h : slice.Store) (tags : slice.t) : string :=
  let b := strings.zero in
  let b :=
    fold_left
      (fun b t =>
         let b := strings.WriteRune b "#"%char in
         let b := strings.WriteString b (strings.ReplaceAll t " " "") in
         strings.WriteRune b " "%char)
      (slice.elems h tags) b in
  strings.String b.

(** The loop of [ContextWithKV], for [i := 0; i < len(kvs); i += 2].
    Every round advances [i] by two, so [len(kvs)] rounds of fuel are
    never used up. *)
Fixpoint kvLoop `{Platform} (fuel : nat) (l : zap.Logger) (kvs : list any) (i : Z)
         (result : list zapcore.Field) (w : zapcore.World)
  : list zapcore.Field * zapcore.World :=
  match fuel with
  | O => (result, w)
  | S fuel =>
      if (i <? Z.of_nat (length kvs))%Z then
        if (i =? Z.of_nat (length kvs) - 1)%Z then (result, w)
        else
          match kvs !! Z.to_nat i with
          | Some (AString key) =>
              let val := default ANil (kvs !! Z.to_nat (i + 1)) in
              kvLoop fuel l kvs (i + 2)%Z (result ++ [zap.Any key val]) w
          | _ =>
              let key := "" in
              let w := zap.world_of
                         (zap.Logger_Warn l (Sprintf "invalid KVs key %v" [AString key]) [] w) in
              kvLoop fuel l kvs (i + 2)%Z result w
          end
      else (result, w)
  end.

Definition ContextWithKV `{Platform} (ctx : context.Context) (kvs : list any) (st : State)
  : result context.Context :=
  match FromContext ctx st with
  | None => Panic st
  | Some s =>
      let l := zap.Desugar s in
      let '(result, w) := kvLoop (length kvs) l kvs 0 [] (world st) in
      let _ := zap.With l result in
      Ok (ToContext ctx (Some (zap.Sugar (zap.With l result)))) (setWorld st w)
  end.

(** *** Initialisation and live reconfiguration *)

Definition safeErrorf `{Platform} (format : string) (args : list any) (st : State) : State :=
  match Logger st with
  | Some l => setWorld st (zap.world_of (zap.Sugared.Errorf l format args (world st)))
  | None => st
  end.

(** [zapLevelFromString] returns the level together with the error; on
    an error the level is the fresh atomic level, which starts at info. *)
Definition zapLevelFromString `{Collaborators} (newLogLevel : string)
  : zapcore.Level * option string :=
  match UnmarshalText newLogLevel with
  | inl lvl => (lvl, None)
  | inr err => (zapcore.InfoLevel, Some err)
  end.

Definition InitLogger `{Platform} `{Collaborators} (prefix version : string) (st : State)
  : option string * State :=
  match InitWithPrefix prefix with
  | inr err => (Some (Sprintf "can't get log config; err: %w" [AError err]), st)
  | inl cfgLog =>
      let cfgLog := setVersion cfgLog version in
      match zapLevelFromString (LogLevel cfgLog) with
      | (_, Some err) =>
          (Some (Sprintf "failed to unmurshal log level: %s; err: %v"
                         [AString (LogLevel cfgLog); AError err]), st)
      | (lvl, None) => (None, SetLogger (Some (New (Some lvl) cfgLog [])) st)
      end
  end.

(** A change-notification callback works on the settings record the
    watcher was given a pointer to, and on the process state. *)
Definition callback := any -> Config * State -> Config * State.



(** The function literal passed to [OnConfigChange]. *)
Definition rebuild `{Platform} `{Collaborators} (version : string) : callback :=
  fun newVal '(cfg, st) =>
    match newVal with
    | AString newLogLevel =>
        match zapLevelFromString newLogLevel with
        | (_, Some err) =>
            (cfg, safeErrorf "Failed to unmarshal log level: %s; err: %v"
                             [AString newLogLevel; AError err] st)
        | (lvl, None) =>
            let cfg := setVersion cfg version in
            (cfg, SetLogger (Some (New (Some lvl) cfg [])) st)
        end
    | _ => (cfg, safeErrorf "Failed to cast newVal to string, got type %T" [newVal] st)
    end.



(** *** Emission *)

(** Calling a method of the resolved logger: a nil logger panics. *)
Definition invoke (l : option zap.SugaredLogger)
           (method : zap.SugaredLogger -> zapcore.World -> zap.outcome) (st : State)
  : result unit :=
  match l with
  | None => Panic st
  | Some s =>
      match method s (world st) with
      | zap.Returns w => Ok tt (setWorld st w)
      | zap.Exits w => Exit (setWorld st w)
      | zap.Panics w => Panic (setWorld st w)
      end
  end.

Section Emission.
Context `{Platform}.

Definition DebugKV (ctx : context.Context) (message : string) (kvs : list any) (st : State)
  : result unit :=
  let kvs :=
    match tagsOf ctx with
    | Some tags => kvs ++ [AString tagsName; AString (prepareTags (heap st) tags)]
    | None => kvs
    end in
  invoke (FromContext ctx st) (fun l => zap.Sugared.Debugw l message kvs) st.

Definition Debug (ctx : context.Context) (args : list any) (st : State) : result unit :=
  match tagsOf ctx with
  | Some tags =>
      DebugKV ctx (Sprint args) [AString tagsName; AString (prepareTags (heap st) tags)] st
  | None => invoke (FromContext ctx st) (fun l => zap.Sugared.Debug l args) st
  end.

Definition Debugf (ctx : context.Context) (format : string) (args : list any) (st : State)
  : result unit :=
  match tagsOf ctx with
  | Some tags =>
      DebugKV ctx (Sprintf format args)
              [AString tagsName; AString (prepareTags (heap st) tags)] st
  | None => invoke (FromContext ctx st) (fun l => zap.Sugared.Debugf l format args) st
  end.

Definition InfoKV (ctx : context.Context) (message : string) (kvs : list any) (st : State)
  : result unit :=
  let kvs :=
    match tagsOf ctx with
    | Some tags => kvs ++ [AString tagsName; AString (prepareTags (heap st) tags)]
    | None => kvs
    end in
  invoke (FromContext ctx st) (fun l => zap.Sugared.Infow l message kvs) st.

Definition Info (ctx : context.Context) (args : list any) (st : State) : result unit :=
  match tagsOf ctx with
  | Some tags =>
      InfoKV ctx (Sprint args) [AString tagsName; AString (prepareTags (heap st) tags)] st
  | None => invoke (FromContext ctx st) (fun l => zap.Sugared.Info l args) st
  end.

Definition Infof (ctx : context.Context) (format : string) (args : list any) (st : State)
  : result unit :=
  match tagsOf ctx with
  | Some tags =>
      InfoKV ctx (Sprintf format args)
             [AString tagsName; AString (prepareTags (heap st) tags)] st
  | None => invoke (FromContext ctx st) (fun l => zap.Sugared.Infof l format args) st
  end.

Definition WarnKV (ctx : context.Context) (message : string) (kvs : list any) (st : State)
  : result unit :=
  let kvs :=
    match tagsOf ctx with
    | Some tags => kvs ++ [AString tagsName; AString (prepareTags (heap st) tags)]
    | None => kvs
    end in
  invoke (FromContext ctx st) (fun l => zap.Sugared.Warnw l message kvs) st.

Definition Warn (ctx : context.Context) (args : list any) (st : State) : result unit :=
  match tagsOf ctx with
  | Some tags =>
      WarnKV ctx (Sprint args) [AString tagsName; AString (prepareTags (heap st) tags)] st
  | None => invoke (FromContext ctx st) (fun l => zap.Sugared.Warn l args) st
  end.

Definition Warnf (ctx : context.Context) (format : string) (args : list any) (st : State)
  : result unit :=
  match tagsOf ctx with
  | Some tags =>
      WarnKV ctx (Sprintf format args)
             [AString tagsName; AString (prepareTags (heap st) tags)] st
  | None => invoke (FromContext ctx st) (fun l => zap.Sugared.Warnf l format args) st
  end.

Definition ErrorKV (ctx : context.Context) (message : string) (kvs : list any) (st : State)
  : result unit :=
  let kvs :=
    match tagsOf ctx with
    | Some tags => kvs ++ [AString tagsName; AString (prepareTags (heap st) tags)]
    | None => kvs
    end in
  invoke (FromContext ctx st) (fun l => zap.Sugared.Errorw l message kvs) st.

Definition Error (ctx : context.Context) (args : list any) (st : State) : result unit :=
  match tagsOf ctx with
  | Some tags =>
      ErrorKV ctx (Sprint args) [AString tagsName; AString (prepareTags (heap st) tags)] st
  | None => invoke (FromContext ctx st) (fun l => zap.Sugared.Error l args) st
  end.

Definition Errorf (ctx : context.Context) (format : string) (args : list any) (st : State)
  : result unit :=
  match tagsOf ctx with
  | Some tags =>
      ErrorKV ctx (Sprintf format args)
              [AString tagsName; AString (prepareTags (heap st) tags)] st
  | None => invoke (FromContext ctx st) (fun l => zap.Sugared.Errorf l format args) st
  end.

Definition FatalKV (ctx : context.Context) (message : string) (kvs : list any) (st : State)
  : result unit :=
  let kvs :=
    match tagsOf ctx with
    | Some tags => kvs ++ [AString tagsName; AString (prepareTags (heap st) tags)]
    | None => kvs
    end in
  invoke (FromContext ctx st) (fun l => zap.Sugared.Fatalw l message kvs) st.

Definition Fatal (ctx : context.Context) (args : list any) (st : State) : result unit :=
  match tagsOf ctx with
  | Some tags =>
      FatalKV ctx (Sprint args) [AString tagsName; AString (prepareTags (heap st) tags)] st
  | None => invoke (FromContext ctx st) (fun l => zap.Sugared.Fatal l args) st
  end.

Definition Fatalf (ctx : context.Context) (format : string) (args : list any) (st : State)
  : result unit :=
  match tagsOf ctx with
  | Some tags =>
      FatalKV ctx (Sprintf format args)
              [AString tagsName; AString (prepareTags (heap st) tags)] st
  | None => invoke (FromContext ctx st) (fun l => zap.Sugared.Fatalf l format args) st
  end.

End Emission.

(** ** The lock discipline around [global]

    Goroutines interleave at the granularity of lock operations and of
    accesses to the variable [global]. *)

Module sched.

Definition handle := option zap.SugaredLogger.

Inductive instr :=
| RLock
| RUnlock
| Lock
| Unlock
| Load
| Store (l : handle).

(** The accesses each function of the package makes to [globalGuard] and
    [global]. *)
Inductive call :=
| CallLogger
| CallSetLogger (l : handle)
| CallFromContext.

Definition body (c : call) : list instr :=
  match c with
  | CallLogger => [RLock; Load; RUnlock]
  | CallSetLogger l => [Lock; Store l; Unlock]
  | CallFromContext => [Load]
  end.

Definition program (cs : list call) : list instr := concat (map body cs).

(** A goroutine: the instructions it has yet to run and the locks it
    holds on [globalGuard]. *)
Record thread := mkThread { code : list instr; rheld : nat; wheld : bool }.

Definition spawn (cs : list call) : thread := mkThread (program cs) 0 false.

(** [sync.RWMutex] and the variable it is meant to guard. *)
Record machine := mkMachine {
  readers : nat;
  writer : bool;
  glob : handle;
  pool : list thread
}.

Definition boot (g : handle) (progs : list (list call)) : machine :=
  mkMachine 0 false g (map spawn progs).

(** Goroutine [i] runs its next instruction, if it is not blocked. *)
Definition exec (i : nat) (m : machine) : option machine :=
  match pool m !! i with
  | None => None
  | Some t =>
      match code t with
      | [] => None
      | RLock :: rest =>
          if writer m then None
          else Some (mkMachine (S (readers m)) (writer m) (glob m)
                               (<[i := mkThread rest (S (rheld t)) (wheld t)]> (pool m)))
      | RUnlock :: rest =>
          match rheld t with
          | O => None
          | S k => Some (mkMachine (readers m - 1) (writer m) (glob m)
                                   (<[i := mkThread rest k (wheld t)]> (pool m)))
          end
      | Lock :: rest =>
          if writer m || negb (readers m =? 0)%nat then None
          else Some (mkMachine (readers m) true (glob m)
                               (<[i := mkThread rest (rheld t) true]> (pool m)))
      | Unlock :: rest =>
          if wheld t
          then Some (mkMachine (readers m) false (glob m)
                               (<[i := mkThread rest (rheld t) false]> (pool m)))
          else None
      | Load :: rest =>
          Some (mkMachine (readers m) (writer m) (glob m)
                          (<[i := mkThread rest (rheld t) (wheld t)]> (pool m)))
      | Store l :: rest =>
          Some (mkMachine (readers m) (writer m) l
                          (<[i := mkThread rest (rheld t) (wheld t)]> (pool m)))
      end
  end.

Definition step (m m' : machine) : Prop := exists i, exec i m = Some m'.

Definition reachable (m0 m : machine) : Prop := rtc step m0 m.

Definition at_store (t : thread) : bool :=
  match code t with Store _ :: _ => true | _ => false end.

Definition at_access (t : thread) : bool :=
  match code t with Store _ :: _ | Load :: _ => true | _ => false end.

(** A data race on [global]: two goroutines are about to access it, one
    of them writing, and nothing orders the two accesses. *)
Definition racy (m : machine) : Prop :=
  exists i j ti tj,
    i <> j /\ pool m !! i = Some ti /\ pool m !! j = Some tj /\
    at_store ti = true /\ at_access tj = true.

(** The discipline itself: running the code from the given holdings,
    every [Load] happens under the read or the write lock and every
    [Store] under the write lock. *)
Fixpoint guarded (r : nat) (w : bool) (c : list instr) : bool :=
  match c with
  | [] => true
  | RLock :: rest => guarded (S r) w rest
  | RUnlock :: rest => match r with O => false | S k => guarded k w rest end
  | Lock :: rest => negb w && guarded r true rest
  | Unlock :: rest => w && guarded r false rest
  | Load :: rest => (w || negb (r =? 0)%nat) && guarded r w rest
  | Store _ :: rest => w && guarded r w rest
  end.

Definition lock_guarded (cs : list call) : bool := guarded 0 false (program cs).

(** A program made of the two accessors [Logger] and [SetLogger] only. *)
Definition accessor (c : call) : bool :=
  match c with CallLogger | CallSetLogger _ => true | CallFromContext => false end.

Definition holds_w (t : thread) : nat := if wheld t then 1 else 0.

Definition total (f : thread -> nat) (ts : list thread) : nat := sum_list (map f ts).

(** What the mutex guarantees while every goroutine follows the
    discipline: its reader count and writer flag agree with what the
    goroutines hold, and a writer excludes all readers. *)
Record invariant (m : machine) : Prop := mkInvariant {
  inv_readers : readers m = total rheld (pool m);
  inv_writer : (if writer m then 1 else 0) = total holds_w (pool m);
  inv_excl : writer m = true -> readers m = 0;
  inv_guarded : Forall (fun t => guarded (rheld t) (wheld t) (code t) = true) (pool m)
}.

End sched.

(** ** A concrete platform and concrete collaborators

    They follow the documented behaviour of [fmt], of the runtime's
    [growslice], of zap's level parser and of envconfig closely enough to
    run the package on sample inputs. *)

Module sample.

Definition show (v : any) : string :=
  match v with
  | AString s => s
  | AInt n => pretty n
  | ABool true => "true"
  | ABool false => "false"
  | ANil => "<nil>"
  | ATime t => pretty t
  | AField key _ => key
  | AError msg => msg
  | AArray _ => "[...]"
  end.

(** [fmt.Sprint] on operands that are all strings: plain concatenation. *)
Definition sprint (args : list any) : string :=
  fold_right (fun v acc => show v +:+ acc) "" args.

(** [fmt.Sprintf] for the verbs the package uses ([%v %s %w %d %T]). *)
Fixpoint sprintf (format : string) (args : list any) : string :=
  match format with
  | EmptyString => EmptyString
  | String.String "%"%char (String.String verb rest) =>
      if Ascii.eqb verb "%"%char then String.String "%"%char (sprintf rest args)
      else
        match args with
        | [] => "%!" +:+ String.String verb "(MISSING)" +:+ sprintf rest []
        | a :: args' =>
            (if Ascii.eqb verb "T"%char then typeName a else show a) +:+ sprintf rest args'
        end
  | String.String c rest => String.String c (sprintf rest args)
  end.

#[export] Instance platform : Platform.
Proof.
  refine {| Sprint := sprint; Sprintf := sprintf; growcap := slice.nextslicecap |}.
  assert (Hq : forall fuel c n, n <= slice.grow_quarter fuel c n).
  { induction fuel as [|fuel IH]; intros c n; cbn [slice.grow_quarter]; [lia|].
    match goal with |- context [Nat.leb ?a ?b] => destruct (Nat.leb_spec a b) end;
      [lia | apply IH]. }
  intros oldCap newLen. unfold slice.nextslicecap.
  destruct (Nat.ltb_spec (oldCap + oldCap) newLen); [lia|].
  destruct (Nat.ltb_spec oldCap 256); [lia | apply Hq].
Defined.

Fixpoint toLower (s : string) : string :=
  match s with
  | EmptyString => EmptyString
  | String.String c rest =>
      let n := Ascii.nat_of_ascii c in
      String.String
        (if (65 <=? n)%nat && (n <=? 90)%nat then Ascii.ascii_of_nat (n + 32) else c)
        (toLower rest)
  end.

(** [Level.unmarshalText]: the lower-case and upper-case names, and
    the empty text for info. *)
Definition unmarshalText (text : string) : option zapcore.Level :=
  if String.eqb text "debug" || String.eqb text "DEBUG" then Some zapcore.DebugLevel
  else if String.eqb text "info" || String.eqb text "INFO" || String.eqb text ""
  then Some zapcore.InfoLevel
  else if String.eqb text "warn" || String.eqb text "WARN" then Some zapcore.WarnLevel
  else if String.eqb text "error" || String.eqb text "ERROR" then Some zapcore.ErrorLevel
  else if String.eqb text "dpanic" || String.eqb text "DPANIC" then Some zapcore.DPanicLevel
  else if String.eqb text "panic" || String.eqb text "PANIC" then Some zapcore.PanicLevel
  else if String.eqb text "fatal" || String.eqb text "FATAL" then Some zapcore.FatalLevel
  else None.

Definition quote : string := String.String (Ascii.ascii_of_nat 34) "".

Definition parseLevel (text : string) : zapcore.Level + string :=
  match unmarshalText text with
  | Some l => inl l
  | None =>
      match unmarshalText (toLower text) with
      | Some l => inl l
      | None => inr ("unrecognized level: " +:+ quote +:+ text +:+ quote)
      end
  end.

Definition getenv (env : list (string * string)) (name dflt : string) : string :=
  match List.find (fun kv => String.eqb (fst kv) name) env with
  | Some kv => snd kv
  | None => dflt
  end.

(** envconfig over a given process environment: every setting has a
    default, and only the boolean can fail to parse. *)
Definition loadConfig (env : list (string * string)) (prefix : string) : Config + string :=
  let var name := prefix +:+ "_LOG_" +:+ name in
  let dev := getenv env (var "DEV_MODE") "false" in
  if negb (String.eqb dev "true" || String.eqb dev "false")
  then inr ("envconfig: unable to parse " +:+ var "DEV_MODE")
  else
    inl {| LogLevel := getenv env (var "LOG_LEVEL") "info";
           MessageKey := getenv env (var "MESSAGE_KEY") "message";
           LevelKey := getenv env (var "LEVEL_KEY") "severity";
           TimeKey := getenv env (var "TIME_KEY") "timestamp";
           AppName := getenv env (var "APP_NAME") "app";
           Host := getenv env (var "HOST") "localhost";
           Version := getenv env (var "VERSION") "0.0.0";
           DevMode := String.eqb dev "true" |}.

Definition collaborators (env : list (string * string)) : Collaborators :=
  {| UnmarshalText := parseLevel; InitWithPrefix := loadConfig env |}.

(** The process before [init] has run. *)
Definition blank : State := mkState None [] (zapcore.mkWorld 0 [] []).

End sample.

(** ** What the design document says, in its own words

    These definitions are written from the prose of the design, not from
    the code; the theorems below compare the code with them. *)

Module design.

(** A tag with all its space characters removed. *)
Fixpoint stripSpaces (t : string) : string :=
  match t with
  | EmptyString => EmptyString
  | String.String c rest =>
      if Ascii.eqb c " "%char then stripSpaces rest else String.String c (stripSpaces rest)
  end.

(** One [#], the stripped tag, one trailing space. *)
Definition renderTag (t : string) : string := "#" +:+ stripSpaces t +:+ " ".

(** The rendered tags, concatenated in insertion order. *)
Fixpoint renderTags (ts : list string) : string :=
  match ts with
  | [] => ""
  | t :: rest => renderTag t +:+ renderTags rest
  end.

(** The complete pairs of a flat key/value list; an odd trailing element
    is dropped. *)
Fixpoint pairsOf (kvs : list any) : list (any * any) :=
  match kvs with
  | k :: v :: rest => (k, v) :: pairsOf rest
  | _ => []
  end.

Definition isStringKey (p : any * any) : bool :=
  match fst p with AString _ => true | _ => false end.

(** The structured field of a pair whose key is a string. *)
Definition fieldOf (p : any * any) : option zapcore.Field :=
  match fst p with
  | AString key => Some (zapcore.mkField key (snd p))
  | _ => None
  end.

(** The fields of the well-formed pairs, in order. *)
Definition appliedFields (kvs : list any) : list zapcore.Field := omap fieldOf (pairsOf kvs).

(** How many pairs have a key that is not a string. *)
Definition skippedPairs (kvs : list any) : nat :=
  length (List.filter (fun p => negb (isStringKey p)) (pairsOf kvs)).

(** A flat key/value list all of whose keys are strings. *)
Definition flatten (ps : list (string * any)) : list any :=
  flat_map (fun p => [AString (fst p); snd p]) ps.

Definition fieldsOf (ps : list (string * any)) : list zapcore.Field :=
  map (fun p => zapcore.mkField (fst p) (snd p)) ps.

(** Version, application name and host, in this order, each only when
    its value is not empty. *)
Definition baseFields (cfg : Config) : list zapcore.Field :=
  map (fun p => zapcore.mkField (fst p) (AString (snd p)))
      (List.filter (fun p => negb (String.eqb (snd p) ""))
         [("version", Version cfg); ("application_name", AppName cfg); ("host", Host cfg)]).

(** The encoder and the sink at the bottom of a stack of gates, and the
    line a core writes for an entry. *)
Fixpoint encoderOf (c : zapcore.Core) : zapcore.Encoder :=
  match c with
  | zapcore.ioCore _ enc _ => enc
  | zapcore.coreWithLevel inner _ => encoderOf inner
  end.

Fixpoint sinkOf (c : zapcore.Core) : zapcore.WriteSyncer :=
  match c with
  | zapcore.ioCore _ _ out => out
  | zapcore.coreWithLevel inner _ => sinkOf inner
  end.

Definition lineOf (c : zapcore.Core) (ent : zapcore.Entry) (fields : list zapcore.Field)
  : zapcore.Line :=
  zapcore.EncodeEntry (encoderOf c) ent fields.

(** The fields a handle carries on every record it writes. *)
Definition handleFields (l : zap.SugaredLogger) : list zapcore.Field :=
  zapcore.fields (zap.core (zap.base l)).

(** The handle a context has attached, if any:
    the type-asserted lookup under the logger key. *)
Definition attached (ctx : context.Context) : option (option zap.SugaredLogger) :=
  match context.Value ctx loggerContextKey with
  | Some (context.ValLogger l) => Some l
  | _ => None
  end.

(** The tag string an emission through [ctx] renders in state [st]. *)
Definition rendered (ctx : context.Context) (st : State) : option string :=
  option_map (prepareTags (heap st)) (tagsOf ctx).

(** The five severities of the emission API and, for each, the three
    call forms of the package and the leveled methods of the handle they
    delegate to. *)
Inductive severity := debug | info | warn | error | fatal.

Definition levelOf (sev : severity) : zapcore.Level :=
  match sev with
  | debug => zapcore.DebugLevel
  | info => zapcore.InfoLevel
  | warn => zapcore.WarnLevel
  | error => zapcore.ErrorLevel
  | fatal => zapcore.FatalLevel
  end.

Section CallForms.
Context `{Platform}.

Definition emitKV (sev : severity) :=
  match sev with
  | debug => DebugKV
  | info => InfoKV
  | warn => WarnKV
  | error => ErrorKV
  | fatal => FatalKV
  end.

Definition emitPlain (sev : severity) :=
  match sev with
  | debug => Debug
  | info => Info
  | warn => Warn
  | error => Error
  | fatal => Fatal
  end.

Definition emitFormat (sev : severity) :=
  match sev with
  | debug => Debugf
  | info => Infof
  | warn => Warnf
  | error => Errorf
  | fatal => Fatalf
  end.

Definition handleKV (sev : severity) :=
  match sev with
  | debug => zap.Sugared.Debugw
  | info => zap.Sugared.Infow
  | warn => zap.Sugared.Warnw
  | error => zap.Sugared.Errorw
  | fatal => zap.Sugared.Fatalw
  end.

Definition handlePlain (sev : severity) :=
  match sev with
  | debug => zap.Sugared.Debug
  | info => zap.Sugared.Info
  | warn => zap.Sugared.Warn
  | error => zap.Sugared.Error
  | fatal => zap.Sugared.Fatal
  end.

Definition handleFormat (sev : severity) :=
  match sev with
  | debug => zap.Sugared.Debugf
  | info => zap.Sugared.Infof
  | warn => zap.Sugared.Warnf
  | error => zap.Sugared.Errorf
  | fatal => zap.Sugared.Fatalf
  end.

(** The world after the warning [ContextWithKV] logs, through the
    context's own logger, for one pair whose key is not a string. *)
Definition warned (l : zap.Logger) (w : zapcore.World) : zapcore.World :=
  zap.world_of (zap.Logger_Warn l (Sprintf "invalid KVs key %v" [AString ""]) [] w).

End CallForms.

(** A line with one more keyed entry at its end. *)
Definition withPair (ln : zapcore.Line) (key : string) (v : any) : zapcore.Line :=
  zapcore.mkLine (zapcore.encoding ln) (zapcore.pairs ln ++ [(key, v)]).

End design.

(** Four derivations on the sample platform: a context with three tags,
    a child with a fourth, and two siblings derived from that child. *)
Module family.

Definition root : context.Context * State :=
  @ContextWithTagList sample.platform context.Background ["a"; "b"; "c"] (init sample.blank).

Definition parent : context.Context * State :=
  @ContextWithTagList sample.platform (fst root) ["d"] (snd root).

Definition sibling1 : context.Context * State :=
  @ContextWithTagList sample.platform (fst parent) ["x"] (snd parent).

Definition sibling2 : context.Context * State :=
  @ContextWithTagList sample.platform (fst parent) ["y"] (snd sibling1).

End family.

(** ** Sequences of calls and what callers observe *)

Module usage.

(** Nested derivations: every list of tags derives a child of the
    context derived before it. *)
Definition deriveTags `{Platform} (tss : list (list string))
           (cs : context.Context * State) : context.Context * State :=
  fold_left (fun cs ts => ContextWithTagList (fst cs) ts (snd cs)) tss cs.

(** The assignment [s[i] = z] made by whoever holds the slice [s]. *)
Definition assign (h : slice.Store) (s : slice.t) (i : nat) (z : string) : slice.Store :=
  slice.write h (slice.ptr s) (slice.off s + i) [z].

(** The three call forms of the emission API. *)
Inductive form :=
| plain (args : list any)
| formatted (format : string) (args : list any)
| keyValue (message : string) (kvs : list any).

Definition emitForm `{Platform} (sev : design.severity) (f : form)
           (ctx : context.Context) (st : State) : result unit :=
  match f with
  | plain args => design.emitPlain sev ctx args st
  | formatted format args => design.emitFormat sev ctx format args st
  | keyValue message kvs => design.emitKV sev ctx message kvs st
  end.

(** The state a call leaves behind, however it ends. *)
Definition stateOf {A : Type} (r : result A) : State :=
  match r with Ok _ st | Exit st | Panic st => st end.

(** Output is only ever added at the end. *)
Definition extends (w w' : zapcore.World) : Prop :=
  zapcore.clock w' = zapcore.clock w
  /\ zapcore.stdout w `prefix_of` zapcore.stdout w'
  /\ zapcore.stderr w `prefix_of` zapcore.stderr w'.

(** The outcome of an emission that writes one record through the
    handle [s]: the record of [message] at the severity, with the
    handle's own fields and the given ones. *)
Definition wrote (sev : design.severity) (s : zap.SugaredLogger) (st : State)
           (message : string) (fields : list zapcore.Field) : result unit :=
  (match sev with design.fatal => Exit | _ => Ok tt end)
    (setWorld st
       (zapcore.emit (design.sinkOf (zap.core (zap.base s)))
          (design.lineOf (zap.core (zap.base s))
             (zapcore.mkEntry (design.levelOf sev) (zapcore.clock (world st)) message)
             fields)
          (world st))).

(** Change notifications delivered one after the other to the callback
    of [WatchAndRebuildLogger]. *)
Definition replay `{Platform} `{Collaborators} (version : string) (vals : list any)
           (cs : Config * State) : Config * State :=
  fold_left (fun cs v => rebuild version v cs) vals cs.

(** The level of the last notification that is a string and parses. *)
Definition lastLevel `{Collaborators} (vals : list any) : option zapcore.Level :=
  fold_left
    (fun acc v =>
       match v with
       | AString s => match UnmarshalText s with inl lvl => Some lvl | inr _ => acc end
       | _ => acc
       end)
    vals None.

(** Where a goroutine that only calls [Logger] and [SetLogger] can be:
    between two calls, or inside one of them holding its lock. *)
Definition positioned (t : sched.thread) : Prop :=
  exists cs,
    forallb sched.accessor cs = true
    /\ (t = sched.mkThread (sched.program cs) 0 false
        \/ t = sched.mkThread (sched.Load :: sched.RUnlock :: sched.program cs) 1 false
        \/ t = sched.mkThread (sched.RUnlock :: sched.program cs) 1 false
        \/ (exists l, t = sched.mkThread (sched.Store l :: sched.Unlock :: sched.program cs) 0 true)
        \/ t = sched.mkThread (sched.Unlock :: sched.program cs) 0 true).

End usage.

(** * Theorems *)

(** ** Tag rendering *)

Section TagRendering.

Lemma append_nil (b : string) : "" +:+ b = b.
Proof. reflexivity. Qed.

Lemma append_cons (x : Ascii.ascii) (a b : string) :
  String.String x a +:+ b = String.String x (a +:+ b).
Proof. reflexivity. Qed.

Lemma append_assoc (a b c : string) : (a +:+ b) +:+ c = a +:+ (b +:+ c).
Proof.
  induction a as [|x a IH]; [reflexivity|].
  rewrite !append_cons. f_equal. exact IH.
Qed.

Lemma append_empty_r (a : string) : a +:+ "" = a.
Proof.
  induction a as [|x a IH]; [reflexivity|].
  rewrite append_cons. f_equal. exact IH.
Qed.

(** Replacing the one-byte string [" "] by nothing removes the spaces. *)
Lemma replace_space (t : string) : strings.replace " " "" 0 t = design.stripSpaces t.
Proof.
  induction t as [|c t IH]; [reflexivity|].
  cbn [strings.replace strings.HasPrefix design.stripSpaces String.length Nat.sub].
  rewrite Ascii.eqb_sym.
  destruct (Ascii.eqb c " ") eqn:E; rewrite ?append_nil, IH; reflexivity.
Qed.

Lemma ReplaceAll_space (t : string) : strings.ReplaceAll t " " "" = design.stripSpaces t.
Proof. unfold strings.ReplaceAll. cbn. apply replace_space. Qed.

(** The builder loop, started from any contents [b]. *)
Lemma builder_loop (ts : list string) (b : strings.Builder) :
  fold_left
    (fun b t =>
       strings.WriteRune
         (strings.WriteString (strings.WriteRune b "#") (strings.ReplaceAll t " " "")) " ")
    ts b
  = b +:+ design.renderTags ts.
Proof.
  revert b. induction ts as [|t ts IH]; intros b; simpl.
  - now rewrite append_empty_r.
  - rewrite IH, ReplaceAll_space.
    unfold strings.WriteRune, strings.WriteString, design.renderTag.
    now rewrite !append_assoc.
Qed.

Lemma prepareTags_elems (h : slice.Store) (tags : slice.t) :
  prepareTags h tags = design.renderTags (slice.elems h tags).
Proof. unfold prepareTags. now rewrite builder_loop. Qed.

Lemma elems_literal (h : slice.Store) (ts : list string) :
  slice.elems (snd (slice.literal h ts)) (fst (slice.literal h ts)) = ts.
Proof.
  destruct ts as [|t ts]; [reflexivity|].
  unfold slice.literal, slice.elems, slice.array. cbn [fst snd slice.ptr slice.off slice.len].
  rewrite lookup_app_r by lia. rewrite Nat.sub_diag. cbn [lookup list_lookup default drop].
  apply firstn_all.
Qed.

(** No space survives the stripping, and nothing else is lost. *)
Lemma stripSpaces_chars (t : string) (c : Ascii.ascii) :
  In c (String.list_ascii_of_string (design.stripSpaces t))
  <-> In c (String.list_ascii_of_string t) /\ c <> " "%char.
Proof.
  induction t as [|d t IH]; simpl; [tauto|].
  destruct (Ascii.eqb_spec d " ") as [->|Hd]; simpl; rewrite IH; intuition congruence.
Qed.

(** C2. For every ordered sequence of tags, held in a slice, the
    tag-rendering function returns the concatenation, in order, of ["#"],
    the tag without its space characters and one trailing space per tag;
    the empty sequence renders to the empty string.  The same holds for
    the slice a call site builds from tags written out. *)
Theorem C2_prepareTags_renders (h : slice.Store) (tags : slice.t) (ts : list string) :
  prepareTags h tags = design.renderTags (slice.elems h tags)
  /\ prepareTags (snd (slice.literal h ts)) (fst (slice.literal h ts))
     = String.concat "" (map (fun t => "#" +:+ design.stripSpaces t +:+ " ") ts)
  /\ prepareTags h slice.nil = ""
  /\ (forall t c, In c (String.list_ascii_of_string (design.stripSpaces t))
                  <-> In c (String.list_ascii_of_string t) /\ c <> " "%char).
Proof.
  split; [apply prepareTags_elems|].
  split.
  - rewrite prepareTags_elems, elems_literal.
    induction ts as [|t ts IH]; [reflexivity|].
    cbn [design.renderTags map]. rewrite IH. unfold design.renderTag.
    destruct ts as [|t' ts]; [|reflexivity].
    cbn [String.concat map design.renderTags]. now rewrite !append_assoc, !append_empty_r.
  - split; [reflexivity | apply stripSpaces_chars].
Qed.

End TagRendering.

(** ** The severity gate *)

Section SeverityGate.

Lemma fields_With (c : zapcore.Core) (fs : list zapcore.Field) :
  zapcore.fields (zapcore.With c fs) = zapcore.fields c ++ fs.
Proof. induction c as [enab enc out | inner IH level]; [reflexivity | exact IH]. Qed.

Lemma Level_Enabled_le (level l : zapcore.Level) :
  zapcore.Level_Enabled level l = true <-> (level <= l)%Z.
Proof. unfold zapcore.Level_Enabled. rewrite Z.geb_le. reflexivity. Qed.

(** A gated logger below the panic levels writes exactly the entries at
    or above the gate, through the wrapped core's own write path and
    whatever the wrapped core's level. *)
Lemma gated_logAt (inner : zapcore.Core) (eo : zapcore.WriteSyncer)
      (level l : zapcore.Level) (msg : string) (fs : list zapcore.Field) (w : zapcore.World) :
  (l < zapcore.DPanicLevel)%Z ->
  zap.logAt l (zap.mkLogger (zapcore.coreWithLevel inner level) eo) msg fs w
  = if (level <=? l)%Z
    then zap.Returns (zapcore.Write inner (zapcore.mkEntry l (zapcore.clock w) msg) fs w)
    else zap.Returns w.
Proof.
  intros Hl. unfold zap.logAt, zap.check, zapcore.Check.
  cbn [zap.core zapcore.Enabled zapcore.Level_]. unfold zapcore.Level_Enabled.
  rewrite Z.geb_leb.
  assert (Hlt : (l <? zapcore.DPanicLevel)%Z = true) by (apply Z.ltb_lt; exact Hl).
  rewrite Hlt.
  destruct (level <=? l)%Z eqn:E; cbn [negb andb]; [|reflexivity].
  unfold zapcore.DPanicLevel, zapcore.PanicLevel, zapcore.FatalLevel in *.
  assert (H4 : (l =? 4)%Z = false) by (apply Z.eqb_neq; lia).
  assert (H5 : (l =? 5)%Z = false) by (apply Z.eqb_neq; lia).
  rewrite H4, H5. reflexivity.
Qed.

(** C3. For every wrapped sink and every target severity, the gate
    (a) reports a level, and checks an entry, as eligible exactly when it
    is at or above the target, whatever the wrapped sink is, and
    (b) on [With] returns a gate with the same target around the wrapped
    sink enriched with the fields.  A gate at warn rejects info and
    accepts error. *)
Theorem C3_gate (inner : zapcore.Core) (level l : zapcore.Level)
        (ent : zapcore.Entry) (ce : option zapcore.CheckedEntry) (fs : list zapcore.Field) :
  (zapcore.Enabled (zapcore.coreWithLevel inner level) l = true <-> (level <= l)%Z)
  /\ zapcore.Check (zapcore.coreWithLevel inner level) ent ce
     = (if (level <=? zapcore.Level_ ent)%Z
        then zapcore.AddCore ce ent (zapcore.coreWithLevel inner level)
        else ce)
  /\ zapcore.With (zapcore.coreWithLevel inner level) fs
     = zapcore.coreWithLevel (zapcore.With inner fs) level
  /\ zapcore.fields (zapcore.With (zapcore.coreWithLevel inner level) fs)
     = zapcore.fields inner ++ fs
  /\ (forall log, zap.core (zap.WithOptions log [WithLevel level])
                  = zapcore.coreWithLevel (zap.core log) level)
  /\ zapcore.Enabled (zapcore.coreWithLevel inner zapcore.WarnLevel) zapcore.InfoLevel = false
  /\ zapcore.Enabled (zapcore.coreWithLevel inner zapcore.WarnLevel) zapcore.ErrorLevel = true.
Proof.
  split; [apply Level_Enabled_le|].
  split.
  { unfold zapcore.Check. cbn [zapcore.Enabled]. unfold zapcore.Level_Enabled.
    now rewrite Z.geb_leb. }
  split; [reflexivity|].
  split; [apply (fields_With (zapcore.coreWithLevel inner level))|].
  repeat split.
Qed.

End SeverityGate.

(** ** The factory *)

Section Factory.

Lemma getZapFields_design (cfg : Config) : getZapFields cfg = design.baseFields cfg.
Proof.
  unfold getZapFields, design.baseFields. cbn [List.filter snd fst].
  destruct (String.eqb (Version cfg) ""), (String.eqb (AppName cfg) ""),
    (String.eqb (Host cfg) ""); reflexivity.
Qed.

Lemma fields_zap_With (log : zap.Logger) (fs : list zapcore.Field) :
  zapcore.fields (zap.core (zap.With log fs)) = zapcore.fields (zap.core log) ++ fs.
Proof.
  destruct fs as [|f fs]; [symmetry; apply app_nil_r|].
  unfold zap.With. cbn [zap.core]. apply fields_With.
Qed.

Lemma New_fields (lvl : option zapcore.Level) (cfg : Config) :
  zapcore.fields (zap.core (zap.base (New lvl cfg []))) = design.baseFields cfg.
Proof.
  unfold New. cbn [zap.Sugar zap.base]. rewrite fields_zap_With, getZapFields_design.
  destruct (DevMode cfg); reflexivity.
Qed.

Lemma baseFields_key (cfg : Config) (key : string) (f : zapcore.Field) :
  In f (design.baseFields cfg) -> zapcore.Key f = key ->
  (key = "version" /\ zapcore.Interface f = AString (Version cfg) /\ Version cfg <> "")
  \/ (key = "application_name" /\ zapcore.Interface f = AString (AppName cfg) /\ AppName cfg <> "")
  \/ (key = "host" /\ zapcore.Interface f = AString (Host cfg) /\ Host cfg <> "").
Proof.
  unfold design.baseFields. cbn [List.filter snd fst].
  destruct (String.eqb_spec (Version cfg) ""), (String.eqb_spec (AppName cfg) ""),
    (String.eqb_spec (Host cfg) ""); cbn; intros Hin <-; intuition (subst; cbn; auto).
Qed.

Lemma baseFields_present (cfg : Config) :
  (Version cfg <> "" -> In (zap.String "version" (Version cfg)) (design.baseFields cfg))
  /\ (AppName cfg <> "" -> In (zap.String "application_name" (AppName cfg)) (design.baseFields cfg))
  /\ (Host cfg <> "" -> In (zap.String "host" (Host cfg)) (design.baseFields cfg)).
Proof.
  unfold design.baseFields. cbn [List.filter snd fst].
  destruct (String.eqb_spec (Version cfg) ""), (String.eqb_spec (AppName cfg) ""),
    (String.eqb_spec (Host cfg) ""); cbn; intuition.
Qed.

(** C8. For every settings record the handle built by the factory carries
    as base fields version, application name and host, in this order,
    each one exactly when its settings value is not empty (and then with
    that value); whatever the caller's options attached comes before
    them.  With version 1.2.3, application svc and an empty host the base
    fields are version and application_name, without host. *)
Theorem C8_base_fields (lvl : option zapcore.Level) (cfg : Config) (options : list zap.Option) :
  design.handleFields (New lvl cfg []) = design.baseFields cfg
  /\ sublist (map zapcore.Key (design.handleFields (New lvl cfg []))) ["version"; "application_name"; "host"]
  /\ (In (zap.String "version" (Version cfg)) (design.handleFields (New lvl cfg [])) <-> Version cfg <> "")
  /\ (In (zap.String "application_name" (AppName cfg)) (design.handleFields (New lvl cfg [])) <-> AppName cfg <> "")
  /\ (In (zap.String "host" (Host cfg)) (design.handleFields (New lvl cfg [])) <-> Host cfg <> "")
  /\ (forall f, In f (design.handleFields (New lvl cfg [])) ->
        (zapcore.Key f = "version" /\ zapcore.Interface f = AString (Version cfg))
        \/ (zapcore.Key f = "application_name" /\ zapcore.Interface f = AString (AppName cfg))
        \/ (zapcore.Key f = "host" /\ zapcore.Interface f = AString (Host cfg)))
  /\ (forall f, In f (design.handleFields (New lvl cfg [])) -> zapcore.Interface f <> AString "")
  /\ (exists pre, design.handleFields (New lvl cfg options)
                  = pre ++ design.baseFields cfg)
  /\ design.handleFields
       (New lvl (mkConfig "info" "message" "severity" "timestamp" "svc" "" "1.2.3" false) [])
     = [zap.String "version" "1.2.3"; zap.String "application_name" "svc"].
Proof.
  unfold design.handleFields. rewrite New_fields.
  pose proof (baseFields_present cfg) as (Hv & Ha & Hh).
  split; [reflexivity|].
  split.
  { unfold design.baseFields. cbn [List.filter snd fst].
    destruct (String.eqb (Version cfg) ""), (String.eqb (AppName cfg) ""),
      (String.eqb (Host cfg) ""); cbn; repeat constructor. }
  split.
  { split; [|exact Hv]. intros Hin.
    destruct (baseFields_key cfg "version" _ Hin eq_refl) as [(_ & _ & ?)|[(? & _)|(? & _)]];
      [assumption | discriminate | discriminate]. }
  split.
  { split; [|exact Ha]. intros Hin.
    destruct (baseFields_key cfg "application_name" _ Hin eq_refl)
      as [(? & _)|[(_ & _ & ?)|(? & _)]]; [discriminate | assumption | discriminate]. }
  split.
  { split; [|exact Hh]. intros Hin.
    destruct (baseFields_key cfg "host" _ Hin eq_refl)
      as [(? & _)|[(? & _)|(_ & _ & ?)]]; [discriminate | discriminate | assumption]. }
  split.
  { intros f Hin.
    destruct (baseFields_key cfg _ f Hin eq_refl) as [(? & ? & _)|[(? & ? & _)|(? & ? & _)]];
      auto. }
  split.
  { intros f Hin Hf.
    destruct (baseFields_key cfg _ f Hin eq_refl) as [(_ & E & N)|[(_ & E & N)|(_ & E & N)]];
      rewrite E in Hf; injection Hf as Hf; contradiction. }
  split; [|reflexivity].
  unfold New. cbn [zap.Sugar zap.base]. rewrite fields_zap_With, getZapFields_design.
  eexists. reflexivity.
Qed.

End Factory.

(** ** Resolving the logger of a context *)

Section Resolve.

Lemma FromContext_attached (ctx : context.Context) (st : State) :
  FromContext ctx st = match design.attached ctx with Some l => l | None => Logger st end.
Proof.
  unfold FromContext, design.attached, Logger.
  destruct (context.Value ctx loggerContextKey) as [[l|tags|v]|]; reflexivity.
Qed.

Lemma attached_ToContext (ctx : context.Context) (l : option zap.SugaredLogger) :
  design.attached (ToContext ctx l) = Some l.
Proof. reflexivity. Qed.

(** Deriving a context with tags leaves the attached handle alone. *)
Lemma attached_WithTags (ctx : context.Context) (tags : slice.t) :
  design.attached (context.WithValue ctx loggerContextTags (context.ValTags tags))
  = design.attached ctx.
Proof. reflexivity. Qed.

(** Calling a method of the resolved logger never touches the registry. *)
Lemma invoke_global (l : option zap.SugaredLogger)
      (method : zap.SugaredLogger -> zapcore.World -> zap.outcome) (st st' : State) (u : unit) :
  invoke l method st = Ok u st' -> global st' = global st /\ heap st' = heap st.
Proof.
  unfold invoke. destruct l as [s|]; [|discriminate].
  destruct (method s (world st)); intros [= <- <-] || discriminate. split; reflexivity.
Qed.

(** C6 as stated fails, for resolution can yield nil: a nil handle put
    into a context by [ToContext] is what [FromContext] returns, even
    though the registry holds a usable handle. *)
Lemma C6_nil_handle_is_resolved :
  Logger (init sample.blank) <> None
  /\ FromContext (ToContext context.Background None) (init sample.blank) = None.
Proof. split; [discriminate | reflexivity]. Qed.

(** C6, amended. Resolving a context returns the handle attached nearest
    to it when there is one and the registry's current handle otherwise;
    the result is not nil provided neither the attached handle nor the
    registry's handle is nil; and once the registry's handle has been
    replaced, every resolution on a context without a handle of its own,
    in any later state with the same registry, returns the new handle. *)
Theorem C6_FromContext_resolves (ctx : context.Context) (st : State)
        (l' : option zap.SugaredLogger) :
  design.attached ctx <> Some None ->
  Logger st <> None ->
  FromContext ctx st = match design.attached ctx with Some l => l | None => Logger st end
  /\ FromContext ctx st <> None
  /\ (forall l, FromContext (ToContext ctx l) st = l)
  /\ (design.attached ctx = None ->
      forall st', global st' = global (SetLogger l' st) -> FromContext ctx st' = l')
  /\ Logger (SetLogger l' st) = l'.
Proof.
  intros Hatt Hglob.
  split; [apply FromContext_attached|].
  split.
  { rewrite FromContext_attached. destruct (design.attached ctx) as [l|]; [|exact Hglob].
    intros ->. now apply Hatt. }
  split; [intros l; reflexivity|].
  split; [|reflexivity].
  intros Hnone st' Hst'. rewrite FromContext_attached, Hnone. unfold Logger. now rewrite Hst'.
Qed.

Lemma C6_FromContext_resolves_witness :
  design.attached context.Background <> Some None
  /\ Logger (init sample.blank) <> None
  /\ FromContext context.Background
       (SetLogger (Some (New (Some zapcore.WarnLevel) defaultCfg [])) (init sample.blank))
     = Some (New (Some zapcore.WarnLevel) defaultCfg []).
Proof.
  assert (Ha : design.attached context.Background <> Some None) by discriminate.
  assert (Hg : Logger (init sample.blank) <> None) by discriminate.
  split; [exact Ha|]. split; [exact Hg|].
  destruct (C6_FromContext_resolves context.Background (init sample.blank)
              (Some (New (Some zapcore.WarnLevel) defaultCfg [])) Ha Hg)
    as (_ & _ & _ & Hrep & _).
  apply Hrep; reflexivity.
Defined.

End Resolve.

(** ** Initialisation from the environment and live reconfiguration *)

Section Reconfiguration.
Context `{Platform} `{Collaborators}.

Lemma safeErrorf_frame (format : string) (args : list any) (st : State) :
  global (safeErrorf format args st) = global st
  /\ heap (safeErrorf format args st) = heap st.
Proof.
  unfold safeErrorf, Logger. destruct (global st) eqn:E; split; cbn; congruence.
Qed.


End Reconfiguration.



(** ** Slices and their shared backing arrays *)

Section Slices.
Context `{Platform}.

Lemma array_alter_insert (h : slice.Store) (p q i : nat) (x : string) :
  slice.array (alter (fun a => <[i:=x]> a) p h) q
  = if decide (q = p) then <[i:=x]> (slice.array h p) else slice.array h q.
Proof.
  unfold slice.array. destruct (decide (q = p)) as [->|Hne].
  - rewrite list_lookup_alter_eq. destruct (h !! p); reflexivity.
  - rewrite list_lookup_alter_ne by congruence. reflexivity.
Qed.

Lemma array_write (xs : list string) (h : slice.Store) (p q i : nat) :
  slice.array (slice.write h p i xs) q
  = if decide (q = p) then list_inserts i xs (slice.array h p) else slice.array h q.
Proof.
  revert h i. induction xs as [|x xs IH]; intros h i; cbn [slice.write list_inserts].
  - destruct (decide (q = p)) as [->|]; reflexivity.
  - rewrite IH, !array_alter_insert. destruct (decide (q = p)) as [->|Hne].
    + rewrite decide_True by reflexivity. symmetry. apply list_insert_inserts_lt. lia.
    + reflexivity.
Qed.

Lemma array_write_same (xs : list string) (h : slice.Store) (p i : nat) :
  slice.array (slice.write h p i xs) p = list_inserts i xs (slice.array h p).
Proof. rewrite array_write. now rewrite decide_True. Qed.

Lemma length_write (xs : list string) (h : slice.Store) (p i : nat) :
  length (slice.write h p i xs) = length h.
Proof.
  revert h i. induction xs as [|x xs IH]; intros h i; cbn [slice.write]; [reflexivity|].
  now rewrite IH, length_alter.
Qed.

Lemma lookup_elems (h : slice.Store) (s : slice.t) (j : nat) :
  slice.elems h s !! j
  = if decide (j < slice.len s) then slice.array h (slice.ptr s) !! (slice.off s + j) else None.
Proof.
  unfold slice.elems. destruct (decide (j < slice.len s)).
  - rewrite lookup_take_lt by assumption. apply lookup_drop.
  - apply lookup_take_ge. lia.
Qed.

Lemma length_elems (h : slice.Store) (s : slice.t) :
  slice.wf h s -> length (slice.elems h s) = slice.len s.
Proof.
  intros [Hlen Hcap]. unfold slice.elems. rewrite length_take, length_drop. lia.
Qed.

(** A well-formed slice with room for an element points into the store. *)
Lemma wf_ptr (h : slice.Store) (s : slice.t) :
  slice.wf h s -> 0 < slice.cap s -> slice.ptr s < length h.
Proof.
  intros [_ Hcap] Hpos. unfold slice.array in Hcap.
  destruct (h !! slice.ptr s) eqn:E.
  - eapply lookup_lt_Some. exact E.
  - cbn in Hcap. lia.
Qed.

(** Allocating a new array leaves every well-formed slice as it was. *)
Lemma elems_alloc (h : slice.Store) (arr : list string) (s : slice.t) :
  slice.wf h s -> slice.elems (h ++ [arr]) s = slice.elems h s.
Proof.
  intros Hwf. destruct (decide (slice.ptr s < length h)) as [Hlt|Hge].
  - unfold slice.elems, slice.array. now rewrite lookup_app_l by assumption.
  - assert (Hcap : slice.cap s = 0).
    { destruct (Nat.eq_dec (slice.cap s) 0) as [E|E]; [exact E|].
      exfalso. apply Hge. apply wf_ptr; [assumption | lia]. }
    destruct Hwf as [Hlen _]. unfold slice.elems.
    replace (slice.len s) with 0 by lia. reflexivity.
Qed.

Lemma wf_alloc (h : slice.Store) (arr : list string) (s : slice.t) :
  slice.wf h s -> slice.wf (h ++ [arr]) s.
Proof.
  intros Hwf. destruct (decide (slice.ptr s < length h)) as [Hlt|Hge].
  - destruct Hwf as [Hlen Hcap]. split; [assumption|].
    unfold slice.array in *. now rewrite lookup_app_l by assumption.
  - assert (Hcap : slice.cap s = 0).
    { destruct (Nat.eq_dec (slice.cap s) 0) as [E|E]; [exact E|].
      exfalso. apply Hge. apply wf_ptr; [assumption | lia]. }
    destruct Hwf as [Hlen Hoff]. split; [assumption|].
    assert (Harr : slice.array h (slice.ptr s) = []).
    { unfold slice.array. rewrite lookup_ge_None_2 by lia. reflexivity. }
    rewrite Harr in Hoff. cbn in Hoff. lia.
Qed.

(** [append] returns the old elements followed by the new ones. *)
Lemma elems_append (h : slice.Store) (s : slice.t) (xs : list string) :
  slice.wf h s ->
  slice.elems (snd (slice.append h s xs)) (fst (slice.append h s xs))
  = slice.elems h s ++ xs.
Proof.
  intros Hwf. pose proof (length_elems h s Hwf) as Hlen. destruct Hwf as [Hle Hcap].
  unfold slice.append. destruct (Nat.leb_spec (slice.len s + length xs) (slice.cap s)) as [Hfit|Hgrow];
    cbn [fst snd].
  - apply list_eq. intros j. rewrite lookup_elems. cbn [slice.len slice.ptr slice.off].
    rewrite array_write_same.
    destruct (decide (j < slice.len s + length xs)) as [Hj|Hj].
    + destruct (decide (j < slice.len s)) as [Hold|Hnew].
      * rewrite list_lookup_inserts_lt by lia.
        rewrite lookup_app_l by lia. rewrite lookup_elems. now rewrite decide_True.
      * rewrite list_lookup_inserts by lia.
        rewrite lookup_app_r by lia. f_equal. lia.
    + symmetry. apply lookup_ge_None_2. rewrite length_app. lia.
  - unfold slice.elems at 1. cbn [slice.len slice.ptr slice.off]. unfold slice.array.
    rewrite lookup_app_r by lia. rewrite Nat.sub_diag. cbn [lookup list_lookup default drop].
    rewrite app_assoc. apply take_app_length'. rewrite length_app. lia.
Qed.

(** [append] never changes what the slice it extends denotes. *)
Lemma elems_append_parent (h : slice.Store) (s : slice.t) (xs : list string) :
  slice.wf h s -> slice.elems (snd (slice.append h s xs)) s = slice.elems h s.
Proof.
  intros Hwf. unfold slice.append.
  destruct (Nat.leb_spec (slice.len s + length xs) (slice.cap s)) as [Hfit|Hgrow]; cbn [snd].
  - apply list_eq. intros j. rewrite !lookup_elems.
    destruct (decide (j < slice.len s)); [|reflexivity].
    rewrite array_write_same.
    apply list_lookup_inserts_lt. lia.
  - now apply elems_alloc.
Qed.

Lemma wf_append (h : slice.Store) (s : slice.t) (xs : list string) :
  slice.wf h s -> slice.wf (snd (slice.append h s xs)) (fst (slice.append h s xs)).
Proof.
  intros Hwf. pose proof (length_elems h s Hwf) as Hlen. destruct Hwf as [Hle Hcap].
  unfold slice.append.
  destruct (Nat.leb_spec (slice.len s + length xs) (slice.cap s)) as [Hfit|Hgrow];
    cbn [fst snd]; split; cbn [slice.len slice.cap slice.ptr slice.off].
  - exact Hfit.
  - rewrite array_write_same. now rewrite length_inserts.
  - apply growcap_fits.
  - unfold slice.array. rewrite lookup_app_r by lia. rewrite Nat.sub_diag.
    cbn [lookup list_lookup default]. unfold id. rewrite !length_app, length_replicate.
    pose proof (growcap_fits (slice.cap s) (slice.len s + length xs)). lia.
Qed.

Lemma wf_literal (h : slice.Store) (xs : list string) :
  slice.wf (snd (slice.literal h xs)) (fst (slice.literal h xs)).
Proof.
  destruct xs as [|x xs]; [split; cbn; lia|].
  unfold slice.literal. cbn [fst snd]. split; cbn [slice.len slice.cap slice.ptr slice.off]; [lia|].
  unfold slice.array. rewrite lookup_app_r by lia. rewrite Nat.sub_diag. cbn. lia.
Qed.

End Slices.

(** ** Deriving contexts with tags *)

Section Tags.
Context `{Platform}.

Lemma ContextWithTagList_child (ctx : context.Context) (ts : list string) (st : State)
      (v : slice.t) :
  tagsOf ctx = Some v ->
  ContextWithTagList ctx ts st
  = (context.WithValue ctx loggerContextTags
       (context.ValTags (fst (slice.append (snd (slice.literal (heap st) ts)) v ts))),
     setHeap st (snd (slice.append (snd (slice.literal (heap st) ts)) v ts))).
Proof.
  intros Hv. unfold ContextWithTagList.
  destruct (slice.literal (heap st) ts) as [s h] eqn:El.
  unfold ContextWithTags. rewrite Hv. cbn [heap setHeap snd].
  assert (Hs : slice.elems h s = ts).
  { pose proof (elems_literal (heap st) ts) as E. now rewrite El in E. }
  rewrite Hs. destruct (slice.append h v ts) as [tags' h'] eqn:Ea. reflexivity.
Qed.

(** Deriving a child leaves the elements of the parent's tag list as
    they were, and the child's list is the parent's followed by the new
    tags. *)
Lemma ContextWithTagList_extends (ctx : context.Context) (ts : list string) (st : State)
      (v : slice.t) :
  tagsOf ctx = Some v ->
  slice.wf (heap st) v ->
  design.rendered ctx (snd (ContextWithTagList ctx ts st)) = design.rendered ctx st
  /\ design.rendered (fst (ContextWithTagList ctx ts st)) (snd (ContextWithTagList ctx ts st))
     = Some (design.renderTags (slice.elems (heap st) v ++ ts)).
Proof.
  intros Hv Hwf. rewrite (ContextWithTagList_child ctx ts st v Hv). cbn [fst snd].
  unfold design.rendered. rewrite Hv. cbn [tagsOf context.Value context.key_eqb loggerContextTags
    option_map heap setHeap].
  assert (Hwf1 : slice.wf (snd (slice.literal (heap st) ts)) v).
  { destruct ts; [exact Hwf | now apply wf_alloc]. }
  assert (He1 : slice.elems (snd (slice.literal (heap st) ts)) v = slice.elems (heap st) v).
  { destruct ts; [reflexivity | now apply elems_alloc]. }
  rewrite !prepareTags_elems. split; f_equal; f_equal.
  - rewrite elems_append_parent by assumption. exact He1.
  - rewrite elems_append by assumption. now rewrite He1.
Qed.

(** When the parent's slice has spare capacity, two siblings derived one
    after the other get the very same slice header, and the tag of the
    second overwrites the tag of the first. *)
Lemma siblings_share_array (ctx : context.Context) (st : State) (v : slice.t) (x y : string) :
  tagsOf ctx = Some v ->
  slice.wf (heap st) v ->
  slice.len v < slice.cap v ->
  tagsOf (fst (ContextWithTagList ctx [x] st))
  = tagsOf (fst (ContextWithTagList ctx [y] (snd (ContextWithTagList ctx [x] st))))
  /\ design.rendered (fst (ContextWithTagList ctx [x] st))
                     (snd (ContextWithTagList ctx [y] (snd (ContextWithTagList ctx [x] st))))
     = Some (design.renderTags (slice.elems (heap st) v ++ [y])).
Proof.
  intros Hv Hwf Hroom.
  assert (Hhdr : forall h z, fst (slice.append h v [z])
                             = slice.mk (slice.ptr v) (slice.off v) (slice.len v + 1) (slice.cap v)).
  { intros h z. unfold slice.append. cbn [length].
    destruct (Nat.leb_spec (slice.len v + 1) (slice.cap v)); [reflexivity | lia]. }
  assert (Hkeep : forall h z, slice.wf h v ->
                    slice.wf (snd (slice.append (snd (slice.literal h [z])) v [z])) v
                    /\ slice.elems (snd (slice.append (snd (slice.literal h [z])) v [z])) v
                       = slice.elems h v).
  { intros h z Hw. cbn [slice.literal snd].
    pose proof (wf_alloc h [z] v Hw) as Hw1. split.
    - unfold slice.append. cbn [length].
      destruct (Nat.leb_spec (slice.len v + 1) (slice.cap v)); [|lia]. cbn [snd].
      destruct Hw1 as [Hl Hc]. split; [exact Hl|].
      rewrite array_write_same, length_inserts. exact Hc.
    - rewrite elems_append_parent by assumption. now apply elems_alloc. }
  destruct (Hkeep (heap st) x Hwf) as [Hwf2 He2].
  rewrite (ContextWithTagList_child ctx [x] st v Hv). cbn [fst snd].
  rewrite (ContextWithTagList_child ctx [y] _ v Hv). cbn [fst snd heap setHeap].
  cbn [tagsOf context.Value context.key_eqb loggerContextTags].
  rewrite !Hhdr. split; [reflexivity|].
  unfold design.rendered. cbn [tagsOf context.Value context.key_eqb loggerContextTags option_map
    heap setHeap].
  rewrite prepareTags_elems. f_equal. f_equal.
  rewrite <- (Hhdr (snd (slice.literal
                           (snd (slice.append (snd (slice.literal (heap st) [x])) v [x])) [y])) y).
  rewrite elems_append by (apply wf_alloc; exact Hwf2).
  f_equal. cbn [slice.literal snd]. rewrite elems_alloc by exact Hwf2. exact He2.
Qed.

End Tags.

(** C1. Deriving a child never changes the elements of the parent's own
    tag list, but two siblings are not independent.  On a parent whose
    tag slice has spare capacity (here: three tags, then a fourth, which
    makes the runtime allocate room for six) the tag of the second
    sibling is stored over the tag of the first: the first sibling
    rendered ["#a #b #c #d #x "] when it was derived, and renders
    ["#a #b #c #d #y "] afterwards, as the second sibling does; so does
    what the first sibling emits. *)
Theorem C1_siblings_share_tags :
  design.rendered (fst family.parent) (snd family.sibling2) = Some "#a #b #c #d "
  /\ design.rendered (fst family.sibling1) (snd family.sibling1) = Some "#a #b #c #d #x "
  /\ design.rendered (fst family.sibling1) (snd family.sibling2) = Some "#a #b #c #d #y "
  /\ design.rendered (fst family.sibling2) (snd family.sibling2) = Some "#a #b #c #d #y "
  /\ tagsOf (fst family.sibling1) = tagsOf (fst family.sibling2)
  /\ exists st',
       @InfoKV sample.platform (fst family.sibling1) "first" [] (snd family.sibling2) = Ok tt st'
       /\ map (fun ln => last (zapcore.pairs ln)) (zapcore.stdout (world st'))
          = [Some ("hashtags", AString "#a #b #c #d #y ")].
Proof.
  repeat split; try reflexivity.
  eexists. split; reflexivity.
Qed.

(** ** Emission *)

Section Emitting.
Context `{Platform}.

Lemma Write_line (c : zapcore.Core) (ent : zapcore.Entry) (fs : list zapcore.Field)
      (w : zapcore.World) :
  zapcore.Write c ent fs w = zapcore.emit (design.sinkOf c) (design.lineOf c ent fs) w.
Proof. induction c as [enab enc out | inner IH level]; [reflexivity | exact IH]. Qed.

(** On a flat list of string-keyed pairs [sweetenFields] reports nothing
    and returns one field per pair. *)
Lemma sweeten_flatten (log : zap.Logger) (ps : list (string * any)) (i : Z) (seen : bool)
      (fields : list zapcore.Field) (w : zapcore.World) :
  zap.sweeten log (design.flatten ps) i seen fields [] w = (fields ++ design.fieldsOf ps, [], w).
Proof.
  revert i fields. induction ps as [|[k v] ps IH]; intros i fields.
  - cbn. now rewrite app_nil_r.
  - cbn [design.flatten flat_map fst snd app zap.sweeten]. fold (design.flatten ps).
    rewrite IH. unfold zap.Any. cbn [design.fieldsOf map fst snd].
    now rewrite <- app_assoc.
Qed.

Lemma sweetenFields_flatten (s : zap.SugaredLogger) (ps : list (string * any))
      (w : zapcore.World) :
  zap.sweetenFields s (design.flatten ps) w = (design.fieldsOf ps, w).
Proof.
  destruct ps as [|[k v] ps]; [reflexivity|].
  unfold zap.sweetenFields.
  change (design.flatten ((k, v) :: ps)) with (AString k :: v :: design.flatten ps).
  cbv beta iota.
  change (AString k :: v :: design.flatten ps) with (design.flatten ((k, v) :: ps)).
  now rewrite sweeten_flatten.
Qed.

(** A leveled call of the handle with well-formed pairs, at a level its
    core accepts: one line is written, and only the fatal level ends the
    process. *)
Lemma log_flatten (s : zap.SugaredLogger) (lvl : zapcore.Level) (msg : string)
      (ps : list (string * any)) (w : zapcore.World) :
  zapcore.Enabled (zap.core (zap.base s)) lvl = true ->
  lvl <> zapcore.PanicLevel ->
  zap.log s lvl msg [] (design.flatten ps) w
  = (if (lvl =? zapcore.FatalLevel)%Z then zap.Exits else zap.Returns)
      (zapcore.emit (design.sinkOf (zap.core (zap.base s)))
         (design.lineOf (zap.core (zap.base s))
            (zapcore.mkEntry lvl (zapcore.clock w) msg) (design.fieldsOf ps)) w).
Proof.
  intros Hen Hp. unfold zap.log, zap.check, zapcore.Check. cbn [zapcore.Level_].
  rewrite Hen. rewrite andb_false_r. cbn [zap.getMessage zapcore.AddCore].
  assert (Hp' : (lvl =? zapcore.PanicLevel)%Z = false) by (apply Z.eqb_neq; exact Hp).
  rewrite Hp'. rewrite sweetenFields_flatten.
  destruct (lvl =? zapcore.FatalLevel)%Z; cbn; now rewrite Write_line.
Qed.

Lemma flatten_snoc (ps : list (string * any)) (key : string) (v : any) :
  design.flatten ps ++ [AString key; v] = design.flatten (ps ++ [(key, v)]).
Proof. unfold design.flatten. rewrite flat_map_app. cbn. reflexivity. Qed.

Lemma lineOf_snoc (c : zapcore.Core) (ent : zapcore.Entry) (ps : list (string * any))
      (key : string) (v : any) :
  design.lineOf c ent (design.fieldsOf (ps ++ [(key, v)]))
  = design.withPair (design.lineOf c ent (design.fieldsOf ps)) key v.
Proof.
  unfold design.lineOf, design.withPair, zapcore.EncodeEntry, design.fieldsOf, zapcore.fieldPairs.
  cbn [zapcore.encoding zapcore.pairs]. f_equal.
  rewrite !map_app. cbn [map fst snd zapcore.Key zapcore.Interface].
  now rewrite <- !app_assoc.
Qed.

Lemma invoke_log (s : zap.SugaredLogger) (lvl : zapcore.Level) (msg : string)
      (ps : list (string * any)) (st : State) :
  zapcore.Enabled (zap.core (zap.base s)) lvl = true ->
  lvl <> zapcore.PanicLevel ->
  invoke (Some s) (fun l => zap.log l lvl msg [] (design.flatten ps)) st
  = (if (lvl =? zapcore.FatalLevel)%Z then Exit else Ok tt)
      (setWorld st
         (zapcore.emit (design.sinkOf (zap.core (zap.base s)))
            (design.lineOf (zap.core (zap.base s))
               (zapcore.mkEntry lvl (zapcore.clock (world st)) msg) (design.fieldsOf ps))
            (world st))).
Proof.
  intros Hen Hp. unfold invoke. rewrite log_flatten by assumption.
  destruct (lvl =? zapcore.FatalLevel)%Z; reflexivity.
Qed.

(** The key-value forms: what they hand to the resolved handle. *)
Lemma emitKV_delegates (sev : design.severity) (ctx : context.Context) (message : string)
      (kvs : list any) (st : State) :
  design.emitKV sev ctx message kvs st
  = invoke (FromContext ctx st)
      (fun l => design.handleKV sev l message
                  (match tagsOf ctx with
                   | Some tags => kvs ++ [AString tagsName; AString (prepareTags (heap st) tags)]
                   | None => kvs
                   end)) st.
Proof. destruct sev; reflexivity. Qed.

(** The plain and the formatted forms under tags: a key-value call. *)
Lemma emitPlain_tagged (sev : design.severity) (ctx : context.Context) (args : list any)
      (st : State) (tags : slice.t) :
  tagsOf ctx = Some tags ->
  design.emitPlain sev ctx args st
  = design.emitKV sev ctx (Sprint args)
      [AString tagsName; AString (prepareTags (heap st) tags)] st.
Proof.
  intros Ht. destruct sev; cbn [design.emitPlain design.emitKV];
    unfold Debug, Info, Warn, Error, Fatal; now rewrite Ht.
Qed.

Lemma emitFormat_tagged (sev : design.severity) (ctx : context.Context) (format : string)
      (args : list any) (st : State) (tags : slice.t) :
  tagsOf ctx = Some tags ->
  design.emitFormat sev ctx format args st
  = design.emitKV sev ctx (Sprintf format args)
      [AString tagsName; AString (prepareTags (heap st) tags)] st.
Proof.
  intros Ht. destruct sev; cbn [design.emitFormat design.emitKV];
    unfold Debugf, Infof, Warnf, Errorf, Fatalf; now rewrite Ht.
Qed.

Lemma emitPlain_untagged (sev : design.severity) (ctx : context.Context) (args : list any)
      (st : State) :
  tagsOf ctx = None ->
  design.emitPlain sev ctx args st
  = invoke (FromContext ctx st) (fun l => design.handlePlain sev l args) st.
Proof.
  intros Ht. destruct sev; cbn [design.emitPlain design.handlePlain];
    unfold Debug, Info, Warn, Error, Fatal; now rewrite Ht.
Qed.

Lemma emitFormat_untagged (sev : design.severity) (ctx : context.Context) (format : string)
      (args : list any) (st : State) :
  tagsOf ctx = None ->
  design.emitFormat sev ctx format args st
  = invoke (FromContext ctx st) (fun l => design.handleFormat sev l format args) st.
Proof.
  intros Ht. destruct sev; cbn [design.emitFormat design.handleFormat];
    unfold Debugf, Infof, Warnf, Errorf, Fatalf; now rewrite Ht.
Qed.

Lemma levelOf_not_panic (sev : design.severity) : design.levelOf sev <> zapcore.PanicLevel.
Proof. destruct sev; discriminate. Qed.

Lemma levelOf_fatal (sev : design.severity) :
  (design.levelOf sev =? zapcore.FatalLevel)%Z
  = match sev with design.fatal => true | _ => false end.
Proof. destruct sev; reflexivity. Qed.

(** The record a key-value emission writes for well-formed pairs, with
    and without a tag list on the context. *)
Lemma emitKV_record (sev : design.severity) (ctx : context.Context) (message : string)
      (ps : list (string * any)) (st : State) (s : zap.SugaredLogger) :
  FromContext ctx st = Some s ->
  zapcore.Enabled (zap.core (zap.base s)) (design.levelOf sev) = true ->
  design.emitKV sev ctx message (design.flatten ps) st
  = (match sev with design.fatal => Exit | _ => Ok tt end)
      (setWorld st
         (zapcore.emit (design.sinkOf (zap.core (zap.base s)))
            (let ln := design.lineOf (zap.core (zap.base s))
                         (zapcore.mkEntry (design.levelOf sev) (zapcore.clock (world st)) message)
                         (design.fieldsOf ps) in
             match tagsOf ctx with
             | Some tags => design.withPair ln tagsName (AString (prepareTags (heap st) tags))
             | None => ln
             end)
            (world st))).
Proof.
  intros Hs Hen. rewrite emitKV_delegates, Hs.
  assert (Hinv : forall qs,
            invoke (Some s) (fun l => design.handleKV sev l message (design.flatten qs)) st
            = (match sev with design.fatal => Exit | _ => Ok tt end)
                (setWorld st
                   (zapcore.emit (design.sinkOf (zap.core (zap.base s)))
                      (design.lineOf (zap.core (zap.base s))
                         (zapcore.mkEntry (design.levelOf sev) (zapcore.clock (world st)) message)
                         (design.fieldsOf qs))
                      (world st)))).
  { intros qs.
    pose proof (invoke_log s (design.levelOf sev) message qs st Hen (levelOf_not_panic sev)) as E.
    rewrite levelOf_fatal in E.
    replace (fun l => design.handleKV sev l message (design.flatten qs))
      with (fun l => zap.log l (design.levelOf sev) message [] (design.flatten qs))
      by (destruct sev; reflexivity).
    rewrite E. destruct sev; reflexivity. }
  destruct (tagsOf ctx) as [tags|].
  - rewrite flatten_snoc, Hinv, lineOf_snoc. reflexivity.
  - apply Hinv.
Qed.

(** A caller's list of odd length shifts the pairing: the handle takes
    the caller's dangling key together with the appended [hashtags] key
    as one pair and is left with the rendered string as a dangling key,
    so no field named [hashtags] comes out. *)
Remark odd_kvs_shift_the_pairing (s : zap.SugaredLogger) (w : zapcore.World) (r : string) :
  fst (zap.sweetenFields s ([AString "k"] ++ [AString tagsName; AString r]) w)
  = [zap.Any "k" (AString "hashtags")].
Proof. reflexivity. Qed.

End Emitting.

(** C4. On a context that carries a tag list, every key-value call form
    hands the resolved handle the caller's list followed by the key
    [hashtags] and the rendered tag string; the plain and the formatted
    call forms are the key-value form applied to the concatenated,
    respectively formatted, message.  For well-formed pairs and a level
    the handle accepts, the record written is the record of the caller's
    pairs with exactly one more field, [hashtags], at its end.  With the
    default settings, info-level key-value emission of "started" with the
    pair port, 8080 under the tag "release" writes severity=info,
    message=started, port=8080 and hashtags="#release ". *)
Theorem C4_emission_with_tags `{Platform} (sev : design.severity) (ctx : context.Context)
        (st : State) (tags : slice.t) (message format : string) (kvs args : list any) :
  tagsOf ctx = Some tags ->
  design.emitKV sev ctx message kvs st
  = invoke (FromContext ctx st)
      (fun l => design.handleKV sev l message
                  (kvs ++ [AString "hashtags"; AString (prepareTags (heap st) tags)])) st
  /\ design.emitPlain sev ctx args st
     = design.emitKV sev ctx (Sprint args)
         [AString "hashtags"; AString (prepareTags (heap st) tags)] st
  /\ design.emitFormat sev ctx format args st
     = design.emitKV sev ctx (Sprintf format args)
         [AString "hashtags"; AString (prepareTags (heap st) tags)] st
  /\ (forall s ps,
        FromContext ctx st = Some s ->
        zapcore.Enabled (zap.core (zap.base s)) (design.levelOf sev) = true ->
        design.emitKV sev ctx message (design.flatten ps) st
        = (match sev with design.fatal => Exit | _ => Ok tt end)
            (setWorld st
               (zapcore.emit (design.sinkOf (zap.core (zap.base s)))
                  (design.withPair
                     (design.lineOf (zap.core (zap.base s))
                        (zapcore.mkEntry (design.levelOf sev) (zapcore.clock (world st)) message)
                        (design.fieldsOf ps))
                     "hashtags" (AString (prepareTags (heap st) tags)))
                  (world st))))
  /\ InfoKV (fst (ContextWithTagList context.Background ["release"] (init sample.blank)))
            "started" [AString "port"; AInt 8080]
            (snd (ContextWithTagList context.Background ["release"] (init sample.blank)))
     = Ok tt
         (setWorld (snd (ContextWithTagList context.Background ["release"] (init sample.blank)))
            (zapcore.mkWorld 0
               [zapcore.mkLine zapcore.JSON
                  [("severity", AString "info"); ("timestamp", ATime 0);
                   ("message", AString "started"); ("version", AString "0.0.0");
                   ("application_name", AString "app"); ("host", AString "localhost");
                   ("port", AInt 8080); ("hashtags", AString "#release ")]]
               [])).
Proof.
  intros Ht.
  split; [rewrite emitKV_delegates, Ht; reflexivity|].
  split; [now apply emitPlain_tagged|].
  split; [now apply emitFormat_tagged|].
  split; [|reflexivity].
  intros s ps Hs Hen. rewrite (emitKV_record sev ctx message ps st s Hs Hen), Ht. reflexivity.
Qed.

Lemma C4_emission_with_tags_witness :
  @InfoKV sample.platform
          (fst (@ContextWithTagList sample.platform context.Background ["release"]
                                    (init sample.blank)))
          "started" (design.flatten [("port", AInt 8080)])
          (snd (@ContextWithTagList sample.platform context.Background ["release"]
                                    (init sample.blank)))
  = Ok tt
      (mkState (Some (New (Some level) defaultCfg [])) [["release"]]
         (zapcore.mkWorld 0
            [zapcore.mkLine zapcore.JSON
               [("severity", AString "info"); ("timestamp", ATime 0);
                ("message", AString "started"); ("version", AString "0.0.0");
                ("application_name", AString "app"); ("host", AString "localhost");
                ("port", AInt 8080); ("hashtags", AString "#release ")]]
            [])).
Proof.
  exact (proj1 (proj2 (proj2 (proj2
           (@C4_emission_with_tags sample.platform design.info
              (fst (@ContextWithTagList sample.platform context.Background ["release"]
                                        (init sample.blank)))
              (snd (@ContextWithTagList sample.platform context.Background ["release"]
                                        (init sample.blank)))
              (slice.mk 0 0 1 1) "started" "%v" [] [] eq_refl))))
           (New (Some level) defaultCfg []) [("port", AInt 8080)] eq_refl eq_refl).
Defined.



(** ** Deriving contexts with fields *)

Section Fields.
Context `{Platform}.

(** The index loop, entered at position [length pre] with enough fuel
    for what is left, applies the well-formed pairs of the rest in order
    and warns once per pair with a key that is not a string. *)
Lemma kvLoop_rest (fuel : nat) (l : zap.Logger) (pre rest : list any)
      (result : list zapcore.Field) (w : zapcore.World) :
  length rest <= fuel ->
  kvLoop fuel l (pre ++ rest) (Z.of_nat (length pre)) result w
  = (result ++ design.appliedFields rest,
     Nat.iter (design.skippedPairs rest) (design.warned l) w).
Proof.
  revert pre rest result w.
  induction fuel as [|fuel IH]; intros pre rest result w Hfuel.
  - destruct rest; [|cbn in Hfuel; lia]. cbn. now rewrite app_nil_r.
  - cbn [kvLoop]. rewrite length_app.
    destruct rest as [|k [|v rest]].
    + cbn [length]. rewrite Nat.add_0_r, Z.ltb_irrefl. cbn. now rewrite app_nil_r.
    + cbn [length].
      assert (E1 : (Z.of_nat (length pre) <? Z.of_nat (length pre + 1))%Z = true)
        by (apply Z.ltb_lt; lia).
      assert (E2 : (Z.of_nat (length pre) =? Z.of_nat (length pre + 1) - 1)%Z = true)
        by (apply Z.eqb_eq; lia).
      rewrite E1, E2. cbn. now rewrite app_nil_r.
    + cbn [length].
      assert (E1 : (Z.of_nat (length pre) <? Z.of_nat (length pre + S (S (length rest))))%Z
                   = true) by (apply Z.ltb_lt; lia).
      assert (E2 : (Z.of_nat (length pre) =? Z.of_nat (length pre + S (S (length rest))) - 1)%Z
                   = false) by (apply Z.eqb_neq; lia).
      rewrite E1, E2. rewrite Nat2Z.id.
      rewrite lookup_app_r by lia. rewrite Nat.sub_diag. cbn [lookup list_lookup].
      replace (Z.to_nat (Z.of_nat (length pre) + 1)) with (length pre + 1) by lia.
      rewrite lookup_app_r by lia.
      replace (length pre + 1 - length pre) with 1 by lia. cbn [lookup list_lookup default].
      unfold id.
      assert (Hnext : (Z.of_nat (length pre) + 2)%Z = Z.of_nat (length (pre ++ [k; v])))
        by (rewrite length_app; cbn [length]; lia).
      assert (Hsplit : pre ++ k :: v :: rest = (pre ++ [k; v]) ++ rest)
        by (now rewrite <- app_assoc).
      rewrite Hnext, Hsplit.
      cbn [length] in Hfuel.
      destruct k; rewrite IH by lia;
        cbn [design.appliedFields design.pairsOf omap list_omap design.fieldOf fst snd
             design.skippedPairs List.filter design.isStringKey negb length];
        try (rewrite <- app_assoc; reflexivity);
        fold (design.appliedFields rest); fold (design.skippedPairs rest);
        rewrite Nat.iter_succ_r; reflexivity.
Qed.

Lemma kvLoop_design (l : zap.Logger) (kvs : list any) (w : zapcore.World) :
  kvLoop (length kvs) l kvs 0 [] w
  = (design.appliedFields kvs, Nat.iter (design.skippedPairs kvs) (design.warned l) w).
Proof. apply (kvLoop_rest (length kvs) l [] kvs [] w). lia. Qed.

(** More fuel changes nothing: the loop never runs out of it. *)
Lemma kvLoop_fuel (fuel : nat) (l : zap.Logger) (kvs : list any) (w : zapcore.World) :
  length kvs <= fuel -> kvLoop fuel l kvs 0 [] w = kvLoop (length kvs) l kvs 0 [] w.
Proof.
  intros Hf. rewrite kvLoop_design. apply (kvLoop_rest fuel l [] kvs [] w Hf).
Qed.

Lemma ContextWithKV_design (ctx : context.Context) (kvs : list any) (st : State)
      (s : zap.SugaredLogger) :
  FromContext ctx st = Some s ->
  ContextWithKV ctx kvs st
  = Ok (ToContext ctx
          (Some (zap.Sugar (zap.With (zap.Desugar s) (design.appliedFields kvs)))))
       (setWorld st
          (Nat.iter (design.skippedPairs kvs) (design.warned (zap.Desugar s)) (world st))).
Proof.
  intros Hs. unfold ContextWithKV. rewrite Hs, kvLoop_design. reflexivity.
Qed.


Lemma pairsOf_flatten_app (ps : list (string * any)) (rest : list any) :
  design.pairsOf (design.flatten ps ++ rest)
  = map (fun p => (AString (fst p), snd p)) ps ++ design.pairsOf rest.
Proof.
  induction ps as [|[k v] ps IH]; [reflexivity|].
  cbn [design.flatten flat_map app design.pairsOf map fst snd]. f_equal. exact IH.
Qed.

Lemma appliedFields_flatten_app (ps : list (string * any)) (rest : list any) :
  design.appliedFields (design.flatten ps ++ rest)
  = design.fieldsOf ps ++ design.appliedFields rest.
Proof.
  unfold design.appliedFields. rewrite pairsOf_flatten_app, omap_app. f_equal.
  induction ps as [|[k v] ps IH]; [reflexivity|]. cbn. now rewrite IH.
Qed.

Lemma skippedPairs_flatten_app (ps : list (string * any)) (rest : list any) :
  design.skippedPairs (design.flatten ps ++ rest) = design.skippedPairs rest.
Proof.
  unfold design.skippedPairs. rewrite pairsOf_flatten_app, List.filter_app, length_app.
  replace (length (List.filter (fun p => negb (design.isStringKey p))
                     (map (fun p => (AString (fst p), snd p)) ps))) with 0; [reflexivity|].
  induction ps as [|[k v] ps IH]; [reflexivity | exact IH].
Qed.


End Fields.



(** ** The lock around the global logger *)

Section Locking.
Import sched.

Lemma total_insert (f : thread -> nat) (ts : list thread) (i : nat) (t t' : thread) :
  ts !! i = Some t -> total f (<[i:=t']> ts) + f t = total f ts + f t'.
Proof.
  unfold total. revert i. induction ts as [|a ts IH]; intros i Hi; [discriminate|].
  destruct i as [|i]; csimpl in *.
  - injection Hi as ->. lia.
  - specialize (IH i Hi). lia.
Qed.

Lemma total_ge (f : thread -> nat) (ts : list thread) (i : nat) (t : thread) :
  ts !! i = Some t -> f t <= total f ts.
Proof.
  unfold total. revert i. induction ts as [|a ts IH]; intros i Hi; [discriminate|].
  destruct i as [|i]; csimpl in *.
  - injection Hi as ->. lia.
  - specialize (IH i Hi). lia.
Qed.

Lemma total_two (f : thread -> nat) (ts : list thread) (i j : nat) (ti tj : thread) :
  i <> j -> ts !! i = Some ti -> ts !! j = Some tj -> f ti + f tj <= total f ts.
Proof.
  revert i j. induction ts as [|a ts IH]; intros i j Hne Hi Hj; [discriminate|].
  destruct i as [|i], j as [|j]; try congruence; unfold total in *; csimpl in *.
  - injection Hi as ->. pose proof (total_ge f ts j tj Hj). unfold total in *. lia.
  - injection Hj as ->. pose proof (total_ge f ts i ti Hi). unfold total in *. lia.
  - assert (i <> j) by congruence. specialize (IH i j H Hi Hj). lia.
Qed.

Lemma guarded_accessors (cs : list call) :
  forallb accessor cs = true -> lock_guarded cs = true.
Proof.
  unfold lock_guarded. induction cs as [|c cs IH]; [reflexivity|].
  cbn [forallb]. intros [Hc Hcs]%andb_true_iff. specialize (IH Hcs).
  destruct c; [exact IH | exact IH | discriminate].
Qed.

Lemma invariant_boot (g : handle) (progs : list (list call)) :
  Forall (fun cs => lock_guarded cs = true) progs -> invariant (boot g progs).
Proof.
  intros Hall. unfold boot. constructor; cbn [readers writer pool].
  - unfold total. induction progs as [|cs progs IH]; [reflexivity|].
    cbn. apply IH. now inversion Hall.
  - unfold total. induction progs as [|cs progs IH]; [reflexivity|].
    cbn. apply IH. now inversion Hall.
  - discriminate.
  - induction Hall as [|cs progs Hcs Hall IH]; constructor; [exact Hcs | exact IH].
Qed.

Local Ltac holdings :=
  cbn [rheld wheld] in *;
  repeat match goal with
         | H : context [holds_w (mkThread ?c ?r ?w)] |- _ =>
             change (holds_w (mkThread c r w)) with (if w then 1 else 0) in H;
             cbv iota in H
         end.

Lemma invariant_step (m m' : machine) :
  invariant m -> step m m' -> invariant m'.
Proof.
  intros [Hr Hw Hx Hg] [i Hexec]. unfold exec in Hexec.
  destruct (pool m !! i) as [t|] eqn:Hi; [|discriminate].
  pose proof (proj1 (Forall_lookup _ _) Hg i t Hi) as Hgt. cbn beta in Hgt.
  pose proof (total_ge rheld _ _ _ Hi) as Hrge.
  pose proof (total_ge holds_w _ _ _ Hi) as Hwge.
  assert (Tr : forall t', total rheld (<[i:=t']> (pool m)) + rheld t
                          = total rheld (pool m) + rheld t')
    by (intros t'; now apply total_insert).
  assert (Tw : forall t', total holds_w (<[i:=t']> (pool m)) + holds_w t
                          = total holds_w (pool m) + holds_w t')
    by (intros t'; now apply total_insert).
  destruct t as [c r w]. cbn [code rheld wheld] in *.
  destruct c as [|ins rest]; [discriminate|].
  destruct ins; cbn [guarded] in Hgt.
  - (* RLock *)
    destruct (writer m) eqn:Ew; [discriminate|]. injection Hexec as <-.
    specialize (Tr (mkThread rest (S r) w)). specialize (Tw (mkThread rest (S r) w)).
    holdings.
    constructor; cbn [readers writer pool].
    + lia.
    + lia.
    + discriminate.
    + apply Forall_insert; assumption.
  - (* RUnlock *)
    destruct r as [|k]; [discriminate|]. injection Hexec as <-.
    specialize (Tr (mkThread rest k w)). specialize (Tw (mkThread rest k w)).
    holdings.
    constructor; cbn [readers writer pool].
    + lia.
    + lia.
    + intros E. specialize (Hx E). lia.
    + apply Forall_insert; assumption.
  - (* Lock *)
    destruct (writer m) eqn:Ew; [discriminate|].
    destruct (readers m =? 0)%nat eqn:Er; [|discriminate]. cbn in Hexec.
    injection Hexec as <-. apply Nat.eqb_eq in Er.
    apply andb_true_iff in Hgt as [Hnw Hgt]. apply negb_true_iff in Hnw. subst w.
    specialize (Tr (mkThread rest r true)). specialize (Tw (mkThread rest r true)).
    holdings.
    constructor; cbn [readers writer pool].
    + lia.
    + lia.
    + intros _. exact Er.
    + apply Forall_insert; assumption.
  - (* Unlock *)
    destruct w; [|discriminate]. injection Hexec as <-. cbn [andb] in Hgt.
    specialize (Tr (mkThread rest r false)). specialize (Tw (mkThread rest r false)).
    holdings.
    constructor; cbn [readers writer pool].
    + lia.
    + destruct (writer m); lia.
    + discriminate.
    + apply Forall_insert; assumption.
  - (* Load *)
    injection Hexec as <-. apply andb_true_iff in Hgt as [_ Hgt].
    specialize (Tr (mkThread rest r w)). specialize (Tw (mkThread rest r w)).
    holdings.
    constructor; cbn [readers writer pool].
    + lia.
    + lia.
    + exact Hx.
    + apply Forall_insert; assumption.
  - (* Store *)
    injection Hexec as <-. apply andb_true_iff in Hgt as [_ Hgt].
    specialize (Tr (mkThread rest r w)). specialize (Tw (mkThread rest r w)).
    holdings.
    constructor; cbn [readers writer pool].
    + lia.
    + lia.
    + exact Hx.
    + apply Forall_insert; assumption.
Qed.

Lemma invariant_reachable (m0 m : machine) :
  invariant m0 -> reachable m0 m -> invariant m.
Proof.
  intros H0 Hreach. induction Hreach as [|x y z Hxy _ IH]; [exact H0|].
  apply IH. eapply invariant_step; eassumption.
Qed.

Lemma invariant_no_race (m : machine) : invariant m -> ~ racy m.
Proof.
  intros [Hr Hw Hx Hg] (i & j & ti & tj & Hne & Hi & Hj & Hs & Ha).
  pose proof (proj1 (Forall_lookup _ _) Hg i ti Hi) as Hgi.
  pose proof (proj1 (Forall_lookup _ _) Hg j tj Hj) as Hgj.
  pose proof (total_two holds_w _ _ _ _ _ Hne Hi Hj) as H2.
  pose proof (total_ge rheld _ _ _ Hj) as Hrj.
  cbn beta in Hgi, Hgj.
  destruct ti as [ci ri wi], tj as [cj rj wj]. cbn [code rheld wheld] in *.
  unfold at_store, at_access in *. cbn [code] in *.
  destruct ci as [|[| | | | |li] resti]; try discriminate.
  cbn [guarded] in Hgi. apply andb_true_iff in Hgi as [-> _].
  holdings.
  assert (Ew : writer m = true) by (destruct (writer m), wj; [reflexivity | | |]; lia).
  rewrite Ew in Hw. specialize (Hx Ew).
  destruct cj as [|[| | | | |lj] restj]; try discriminate; cbn [guarded] in Hgj;
    apply andb_true_iff in Hgj as [Hgj _].
  - destruct wj; [lia|]. cbn in Hgj. apply negb_true_iff, Nat.eqb_neq in Hgj. lia.
  - subst wj. lia.
Qed.

(** While every goroutine only goes through [Logger] and [SetLogger],
    no interleaving ever races on [global]. *)
Lemma accessors_race_free (g : handle) (progs : list (list call)) (m : machine) :
  Forall (fun cs => forallb accessor cs = true) progs ->
  reachable (boot g progs) m -> ~ racy m.
Proof.
  intros Hall Hreach. apply invariant_no_race.
  apply (invariant_reachable (boot g progs)); [|exact Hreach].
  apply invariant_boot. eapply Forall_impl; [exact Hall|].
  intros cs. apply guarded_accessors.
Qed.

(** C9. [Logger] and [SetLogger] access [global] under the lock, and
    goroutines that use only them never race.  [FromContext] does not:
    it reads [global] without taking the read lock, and a goroutine
    resolving a context without an attached logger races with a
    goroutine that is replacing the handle. *)
Theorem C9_FromContext_reads_unguarded (g l : handle) :
  lock_guarded [CallLogger] = true
  /\ lock_guarded [CallSetLogger l] = true
  /\ (forall progs m,
        Forall (fun cs => forallb accessor cs = true) progs ->
        reachable (boot g progs) m -> ~ racy m)
  /\ lock_guarded [CallFromContext] = false
  /\ exists m, reachable (boot g [[CallSetLogger l]; [CallFromContext]]) m /\ racy m.
Proof.
  split; [reflexivity|]. split; [reflexivity|].
  split; [intros progs m; apply accessors_race_free|].
  split; [reflexivity|].
  exists (mkMachine 0 true g [mkThread [Store l; Unlock] 0 true; mkThread [Load] 0 false]).
  split.
  - apply rtc_once. exists 0. reflexivity.
  - exists 0, 1, (mkThread [Store l; Unlock] 0 true), (mkThread [Load] 0 false).
    repeat split; congruence.
Qed.

End Locking.

(** * Further properties of the package *)

(** ** Tag lists across derivations *)

Section TagLists.
Context `{Platform}.


Lemma literal_keeps (h : slice.Store) (xs : list string) (t : slice.t) :
  slice.wf h t ->
  slice.wf (snd (slice.literal h xs)) t
  /\ slice.elems (snd (slice.literal h xs)) t = slice.elems h t.
Proof.
  intros Hwf. destruct xs as [|x xs]; cbn [slice.literal snd]; [now split|].
  split; [now apply wf_alloc | now apply elems_alloc].
Qed.


(** The tag list a context carries, as a list. *)
Lemma ContextWithTagList_list (ctx : context.Context) (ts : list string) (st : State) :
  match tagsOf ctx with Some v => slice.wf (heap st) v | None => True end ->
  exists v',
    tagsOf (fst (ContextWithTagList ctx ts st)) = Some v'
    /\ slice.wf (heap (snd (ContextWithTagList ctx ts st))) v'
    /\ slice.elems (heap (snd (ContextWithTagList ctx ts st))) v'
       = match tagsOf ctx with Some v => slice.elems (heap st) v | None => [] end ++ ts.
Proof.
  intros Hwf. destruct (tagsOf ctx) as [v|] eqn:Hv.
  - rewrite (ContextWithTagList_child ctx ts st v Hv). cbn [fst snd heap setHeap].
    destruct (literal_keeps (heap st) ts v Hwf) as [Hwf1 He1].
    eexists. split; [reflexivity|]. split.
    + now apply wf_append.
    + rewrite elems_append by assumption. now rewrite He1.
  - unfold ContextWithTagList.
    pose proof (wf_literal (heap st) ts) as Hwl. pose proof (elems_literal (heap st) ts) as Hel.
    destruct (slice.literal (heap st) ts) as [s h]. cbn [fst snd] in Hwl, Hel.
    unfold ContextWithTags. rewrite Hv. cbn [fst snd heap setHeap].
    exists s. split; [reflexivity|]. split; assumption.
Qed.

Lemma deriveTags_list (tss : list (list string)) (ctx : context.Context) (st : State) :
  match tagsOf ctx with Some v => slice.wf (heap st) v | None => True end ->
  design.rendered (fst (usage.deriveTags tss (ctx, st))) (snd (usage.deriveTags tss (ctx, st)))
  = match tagsOf ctx, tss with
    | None, [] => None
    | Some v, _ => Some (design.renderTags (slice.elems (heap st) v ++ concat tss))
    | None, _ => Some (design.renderTags (concat tss))
    end.
Proof.
  revert ctx st. induction tss as [|ts tss IH]; intros ctx st Hwf.
  - cbn [usage.deriveTags fold_left fst snd concat]. unfold design.rendered.
    destruct (tagsOf ctx) as [v|]; [|reflexivity].
    cbn [option_map]. now rewrite prepareTags_elems, app_nil_r.
  - cbn [usage.deriveTags fold_left fst snd].
    destruct (ContextWithTagList_list ctx ts st Hwf) as (v' & Hv' & Hwf' & He').
    destruct (ContextWithTagList ctx ts st) as [c1 st1] eqn:E. cbn [fst snd] in *.
    fold (usage.deriveTags tss (c1, st1)).
    rewrite IH by (rewrite Hv'; exact Hwf'). rewrite Hv', He'. cbn [concat].
    destruct (tagsOf ctx) as [v|]; rewrite <- ?app_assoc; reflexivity.
Qed.

End TagLists.

(** X1. Tags appended across nested derivations, starting from a context
    without tags, render in the order they were appended: the innermost
    context renders the tags of all derivations on the path, one after
    the other, and a context on which nothing was derived renders
    nothing. *)
Theorem X1_nested_tags_accumulate `{Platform} (tss : list (list string)) (st : State) :
  design.rendered (fst (usage.deriveTags tss (context.Background, st)))
                  (snd (usage.deriveTags tss (context.Background, st)))
  = match tss with
    | [] => None
    | _ => Some (design.renderTags (concat tss))
    end.
Proof. now rewrite (deriveTags_list tss context.Background st I). Qed.


(** X3. A context derived from an untagged one keeps the very slice the
    caller passed: when the caller later assigns to an element of that
    slice, the tags the context renders change with it. *)
Theorem X3_caller_slice_is_shared `{Platform} (ctx : context.Context) (tags : slice.t)
        (st : State) (i : nat) (z : string) :
  tagsOf ctx = None ->
  slice.wf (heap st) tags ->
  i < slice.len tags ->
  design.rendered (fst (ContextWithTags ctx tags st))
                  (setHeap (snd (ContextWithTags ctx tags st))
                           (usage.assign (heap (snd (ContextWithTags ctx tags st))) tags i z))
  = Some (design.renderTags (<[i:=z]> (slice.elems (heap st) tags))).
Proof.
  intros Hnone [Hlen Hcap] Hi. unfold ContextWithTags. rewrite Hnone. cbn [fst snd].
  unfold design.rendered.
  cbn [tagsOf context.Value context.key_eqb loggerContextTags option_map heap setHeap].
  rewrite prepareTags_elems. f_equal. f_equal.
  apply list_eq. intros j. rewrite lookup_elems. unfold usage.assign.
  rewrite array_write_same. cbn [list_inserts].
  destruct (decide (j < slice.len tags)) as [Hj|Hj].
  - destruct (decide (j = i)) as [->|Hne].
    + rewrite !list_lookup_insert_eq; [reflexivity| |lia].
      unfold slice.elems. rewrite length_take, length_drop. lia.
    + rewrite !list_lookup_insert_ne by lia. rewrite lookup_elems. now rewrite decide_True.
  - symmetry. apply lookup_ge_None_2. rewrite length_insert.
    unfold slice.elems. rewrite length_take. lia.
Qed.

Lemma X3_caller_slice_is_shared_witness :
  @design.rendered
     (fst (@ContextWithTags sample.platform context.Background (slice.mk 0 0 2 2)
             (mkState None [["a"; "b"]] (zapcore.mkWorld 0 [] []))))
     (mkState None [["a"; "z"]] (zapcore.mkWorld 0 [] []))
  = Some "#a #z ".
Proof.
  refine (@X3_caller_slice_is_shared sample.platform context.Background (slice.mk 0 0 2 2)
            (mkState None [["a"; "b"]] (zapcore.mkWorld 0 [] [])) 1 "z" eq_refl _ _).
  - split; cbn; lia.
  - cbn; lia.
Defined.

(** ** What a rendered tag string looks like *)

Section RenderedShape.

Lemma length_append (a b : string) :
  String.length (a +:+ b) = String.length a + String.length b.
Proof.
  induction a as [|c a IH]; [reflexivity|].
  rewrite append_cons. cbn [String.length]. now rewrite IH.
Qed.

Lemma length_stripSpaces (t : string) :
  String.length (design.stripSpaces t) <= String.length t.
Proof.
  induction t as [|c t IH]; [reflexivity|]. cbn [design.stripSpaces].
  destruct (Ascii.eqb c " "); cbn [String.length]; lia.
Qed.

Lemma stripSpaces_idempotent (t : string) :
  design.stripSpaces (design.stripSpaces t) = design.stripSpaces t.
Proof.
  induction t as [|c t IH]; [reflexivity|]. cbn [design.stripSpaces].
  destruct (Ascii.eqb c " ") eqn:E; [exact IH|].
  cbn [design.stripSpaces]. now rewrite E, IH.
Qed.

Lemma length_renderTags (ts : list string) :
  String.length (design.renderTags ts)
  = sum_list (map (fun t => 2 + String.length (design.stripSpaces t)) ts).
Proof.
  induction ts as [|t ts IH]; [reflexivity|].
  cbn [design.renderTags map sum_list sum_list_with]. unfold design.renderTag.
  rewrite !length_append, IH. cbn [String.length]. unfold id. lia.
Qed.

End RenderedShape.

(** X4. The rendered tag string has, for every tag, two bytes more than
    the tag has bytes other than spaces: no tag is ever dropped, not even
    an empty one or one made of spaces only, and the string is empty
    exactly when the tag list is.  Tags that differ only in their spaces
    render alike. *)
Theorem X4_rendered_length (h : slice.Store) (tags other : slice.t) :
  String.length (prepareTags h tags)
  = sum_list (map (fun t => 2 + String.length (design.stripSpaces t)) (slice.elems h tags))
  /\ 2 * length (slice.elems h tags) <= String.length (prepareTags h tags)
  /\ (prepareTags h tags = "" <-> slice.elems h tags = [])
  /\ (map design.stripSpaces (slice.elems h tags) = map design.stripSpaces (slice.elems h other)
      -> prepareTags h tags = prepareTags h other).
Proof.
  rewrite !prepareTags_elems.
  assert (Hlen : forall ts, 2 * length ts <= String.length (design.renderTags ts)).
  { intros ts. rewrite length_renderTags.
    induction ts as [|t ts IH]; cbn [map sum_list sum_list_with length]; unfold id in *; lia. }
  split; [apply length_renderTags|].
  split; [apply Hlen|].
  split.
  - split.
    + intros E. specialize (Hlen (slice.elems h tags)). rewrite E in Hlen. cbn in Hlen.
      destruct (slice.elems h tags); [reflexivity | cbn in Hlen; lia].
    + intros ->. reflexivity.
  - generalize (slice.elems h tags) (slice.elems h other). intros ts.
    induction ts as [|t ts IH]; intros [|u us] E; try discriminate; [reflexivity|].
    cbn [map] in E. injection E as Et Ets.
    cbn [design.renderTags]. unfold design.renderTag. now rewrite Et, (IH us Ets).
Qed.

(** ** The two attachments of a context *)

(** X5. The logger and the tag list of a context do not get in each
    other's way.  [ToContext] leaves the tag list alone, deriving with
    tags leaves the resolved logger alone (in every state), values stored
    under keys of other packages change neither, and of two loggers
    attached one after the other the later one is resolved. *)
Theorem X5_attachments_are_independent `{Platform} (ctx : context.Context)
        (l l1 l2 : option zap.SugaredLogger) (tags : slice.t) (st st' : State)
        (n : nat) (v : context.value) :
  tagsOf (ToContext ctx l) = tagsOf ctx
  /\ design.rendered (ToContext ctx l) st = design.rendered ctx st
  /\ FromContext (fst (ContextWithTags ctx tags st)) st' = FromContext ctx st'
  /\ FromContext (ToContext (fst (ContextWithTags ctx tags st)) l) st' = l
  /\ tagsOf (fst (ContextWithTags (ToContext ctx l) tags st))
     = tagsOf (fst (ContextWithTags ctx tags st))
  /\ tagsOf (context.WithValue ctx (context.otherKey n) v) = tagsOf ctx
  /\ FromContext (context.WithValue ctx (context.otherKey n) v) st = FromContext ctx st
  /\ FromContext (ToContext (ToContext ctx l1) l2) st = l2.
Proof.
  assert (Hfrom : FromContext (fst (ContextWithTags ctx tags st)) st' = FromContext ctx st').
  { unfold ContextWithTags. destruct (tagsOf ctx) as [v0|]; [|reflexivity].
    destruct (slice.append (heap st) v0 (slice.elems (heap st) tags)). reflexivity. }
  split; [reflexivity|]. split; [reflexivity|]. split; [exact Hfrom|].
  split; [reflexivity|].
  split.
  { unfold ContextWithTags. change (tagsOf (ToContext ctx l)) with (tagsOf ctx).
    destruct (tagsOf ctx) as [v0|]; [|reflexivity].
    destruct (slice.append (heap st) v0 (slice.elems (heap st) tags)). reflexivity. }
  repeat split.
Qed.

(** ** Fields across derivations *)

(** X6. Deriving with fields twice adds the well-formed pairs of both
    calls, in call order, to the fields of the logger resolved at the
    first call; no key is ever replaced or removed.  The derived context
    has its logger attached, so it resolves to it in every later state,
    also after the global logger has been replaced; the registry, the tag
    store and the tag list of the context are left as they were. *)
Theorem X6_fields_accumulate `{Platform} (ctx : context.Context) (kvs1 kvs2 : list any)
        (st : State) (s : zap.SugaredLogger) (l' : option zap.SugaredLogger) :
  FromContext ctx st = Some s ->
  exists c1 st1 c2 st2 l2,
    ContextWithKV ctx kvs1 st = Ok c1 st1
    /\ ContextWithKV c1 kvs2 st1 = Ok c2 st2
    /\ (forall st', FromContext c2 st' = Some l2)
    /\ design.handleFields l2
       = design.handleFields s ++ design.appliedFields kvs1 ++ design.appliedFields kvs2
    /\ global st2 = global st
    /\ heap st2 = heap st
    /\ tagsOf c2 = tagsOf ctx
    /\ FromContext c1 (SetLogger l' st1) = FromContext c1 st1.
Proof.
  intros Hs.
  pose proof (ContextWithKV_design ctx kvs1 st s Hs) as E1.
  set (l1 := zap.Sugar (zap.With (zap.Desugar s) (design.appliedFields kvs1))) in *.
  set (st1 := setWorld st (Nat.iter (design.skippedPairs kvs1)
                             (design.warned (zap.Desugar s)) (world st))) in *.
  assert (Hs1 : FromContext (ToContext ctx (Some l1)) st1 = Some l1) by reflexivity.
  pose proof (ContextWithKV_design (ToContext ctx (Some l1)) kvs2 st1 l1 Hs1) as E2.
  eexists _, _, _, _, _.
  split; [exact E1|]. split; [exact E2|].
  split; [intros st'; reflexivity|].
  split.
  { unfold design.handleFields, l1. cbn [zap.Sugar zap.Desugar zap.base].
    rewrite !fields_zap_With. now rewrite app_assoc. }
  repeat split.
Qed.

Lemma X6_fields_accumulate_witness :
  exists c2 st2,
    @ContextWithKV sample.platform
       (ToContext context.Background
          (Some (zap.Sugar (zap.With (zap.Desugar (New (Some level) defaultCfg []))
                                     [zap.Any "user" (AInt 7)]))))
       [AString "user"; AInt 8] (init sample.blank)
    = Ok c2 st2.
Proof.
  destruct (@X6_fields_accumulate sample.platform context.Background
              [AString "user"; AInt 7] [AString "user"; AInt 8] (init sample.blank)
              (New (Some level) defaultCfg []) None eq_refl)
    as (c1 & st1 & c2 & st2 & l2 & E1 & E2 & _).
  injection E1 as <- <-. exists c2, st2. exact E2.
Defined.

(** ** A logger behind the gate *)

(** X7. A logger re-levelled with [WithLevel] writes, below the panic
    levels, exactly the entries at or above the gate, and writes them
    through the wrapped core's own write path without asking the wrapped
    core's level: the gate can hide entries the logger would write, and
    it can equally let through entries the logger itself would drop.
    When a logger is gated twice, only the gate applied last decides. *)
Theorem X7_WithLevel_replaces_the_level (log : zap.Logger) (level first l : zapcore.Level)
        (msg : string) (fs : list zapcore.Field) (w : zapcore.World) :
  (l < zapcore.DPanicLevel)%Z ->
  zap.logAt l (zap.WithOptions log [WithLevel level]) msg fs w
  = (if (level <=? l)%Z
     then zap.Returns (zapcore.emit (design.sinkOf (zap.core log))
                         (design.lineOf (zap.core log)
                            (zapcore.mkEntry l (zapcore.clock w) msg) fs) w)
     else zap.Returns w)
  /\ zap.logAt l (zap.WithOptions log [WithLevel first; WithLevel level]) msg fs w
     = zap.logAt l (zap.WithOptions log [WithLevel level]) msg fs w
  /\ design.handleFields (zap.Sugar (zap.WithOptions log [WithLevel level]))
     = design.handleFields (zap.Sugar log).
Proof.
  intros Hl.
  assert (Hone : forall lg, zap.WithOptions lg [WithLevel level]
                   = zap.mkLogger (zapcore.coreWithLevel (zap.core lg) level)
                                  (zap.errorOutput lg)) by reflexivity.
  split.
  { rewrite Hone, gated_logAt by exact Hl. rewrite Write_line. reflexivity. }
  split; [|reflexivity].
  change (zap.WithOptions log [WithLevel first; WithLevel level])
    with (zap.WithOptions (zap.WithOptions log [WithLevel first]) [WithLevel level]).
  rewrite !Hone, !gated_logAt by exact Hl. reflexivity.
Qed.

Lemma X7_WithLevel_replaces_the_level_witness :
  zap.logAt zapcore.DebugLevel
     (zap.WithOptions (zap.Desugar (New (Some zapcore.ErrorLevel) defaultCfg []))
                      [WithLevel zapcore.DebugLevel])
     "let through" [] (zapcore.mkWorld 0 [] [])
  = zap.Returns
      (zapcore.mkWorld 0
         [zapcore.mkLine zapcore.JSON
            [("severity", AString "debug"); ("timestamp", ATime 0);
             ("message", AString "let through"); ("version", AString "0.0.0");
             ("application_name", AString "app"); ("host", AString "localhost")]]
         []).
Proof.
  refine (proj1 (X7_WithLevel_replaces_the_level
                   (zap.Desugar (New (Some zapcore.ErrorLevel) defaultCfg []))
                   zapcore.DebugLevel zapcore.InfoLevel zapcore.DebugLevel
                   "let through" [] (zapcore.mkWorld 0 [] []) _)).
  reflexivity.
Defined.

(** ** How an emission ends and what it leaves behind *)

Section EmissionOutcome.
Context `{Platform}.

Lemma extends_refl (w : zapcore.World) : usage.extends w w.
Proof. repeat split; reflexivity. Qed.

Lemma extends_trans (w1 w2 w3 : zapcore.World) :
  usage.extends w1 w2 -> usage.extends w2 w3 -> usage.extends w1 w3.
Proof.
  intros (Hc1 & Ho1 & He1) (Hc2 & Ho2 & He2). repeat split.
  - congruence.
  - now transitivity (zapcore.stdout w2).
  - now transitivity (zapcore.stderr w2).
Qed.

Lemma extends_emit (ws : zapcore.WriteSyncer) (ln : zapcore.Line) (w : zapcore.World) :
  usage.extends w (zapcore.emit ws ln w).
Proof.
  destruct ws; repeat split; cbn; try reflexivity; apply prefix_app_r; reflexivity.
Qed.

Lemma extends_cores (cs : list zapcore.Core) (ent : zapcore.Entry) (fs : list zapcore.Field)
      (w : zapcore.World) :
  usage.extends w (fold_left (fun w c => zapcore.Write c ent fs w) cs w).
Proof.
  revert w. induction cs as [|c cs IH]; intros w; [apply extends_refl|].
  cbn [fold_left]. eapply extends_trans; [|apply IH].
  rewrite Write_line. apply extends_emit.
Qed.

Lemma extends_Write (ce : zapcore.CheckedEntry) (fs : list zapcore.Field) (w : zapcore.World) :
  usage.extends w (zap.world_of (zap.Write ce fs w)).
Proof.
  unfold zap.Write. destruct (zapcore.should ce); cbn [zap.world_of]; apply extends_cores.
Qed.

Lemma extends_logAt (lvl : zapcore.Level) (log : zap.Logger) (msg : string)
      (fs : list zapcore.Field) (w : zapcore.World) :
  usage.extends w (zap.world_of (zap.logAt lvl log msg fs w)).
Proof.
  unfold zap.logAt. destruct (zap.check log lvl msg w); [apply extends_Write|].
  apply extends_refl.
Qed.

Lemma extends_sweeten (n : nat) (log : zap.Logger) (args : list any) (i : Z) (seen : bool)
      (fields : list zapcore.Field) (invalid : list any) (w : zapcore.World) :
  length args <= n ->
  usage.extends w (snd (zap.sweeten log args i seen fields invalid w)).
Proof.
  revert args i seen fields invalid w.
  induction n as [|n IH]; intros args i seen fields invalid w Hn.
  - destruct args; [apply extends_refl | cbn in Hn; lia].
  - destruct args as [|a rest]; [apply extends_refl|]. cbn [length] in Hn.
    assert (Hone : forall seen' fields' invalid' w',
               usage.extends w w' ->
               usage.extends w (snd (zap.sweeten log rest (i + 1) seen' fields' invalid' w'))).
    { intros. eapply extends_trans; [eassumption|]. apply IH. lia. }
    assert (Herr : forall m fs, usage.extends w (zap.world_of (zap.Logger_Error log m fs w)))
      by (intros; apply extends_logAt).
    assert (Hpair : usage.extends w
              (snd (match rest with
                    | [] => (fields, invalid,
                             zap.world_of (zap.Logger_Error log "Ignored key without a value."
                                             [zap.Any "ignored" a] w))
                    | val :: rest' =>
                        match a with
                        | AString keyStr =>
                            zap.sweeten log rest' (i + 2) seen
                                        (fields ++ [zap.Any keyStr val]) invalid w
                        | _ => zap.sweeten log rest' (i + 2) seen fields
                                           (invalid ++ [AArray [AInt i; a; val]]) w
                        end
                    end))).
    { destruct rest as [|val rest']; [apply Herr|]. cbn [length] in Hn.
      destruct a; apply IH; lia. }
    destruct a; try exact Hpair.
    + cbn [zap.sweeten]. apply Hone, extends_refl.
    + cbn [zap.sweeten]. destruct seen; apply Hone; [apply Herr | apply extends_refl].
Qed.

Lemma extends_sweetenFields (s : zap.SugaredLogger) (args : list any) (w : zapcore.World) :
  usage.extends w (snd (zap.sweetenFields s args w)).
Proof.
  unfold zap.sweetenFields. destruct args as [|a rest]; [apply extends_refl|].
  pose proof (extends_sweeten (length (a :: rest)) (zap.base s) (a :: rest) 0 false [] [] w
                (Nat.le_refl _)) as Hs.
  destruct (zap.sweeten (zap.base s) (a :: rest) 0 false [] [] w) as [[fields invalid] w'].
  cbn [snd] in Hs. destruct invalid; cbn [snd]; [exact Hs|].
  eapply extends_trans; [exact Hs | apply extends_logAt].
Qed.

(** A leveled call of the handle at one of the five severities: it adds
    output, returns below fatal and ends the process at fatal. *)
Lemma log_outcome (sev : design.severity) (s : zap.SugaredLogger) (template : string)
      (fmtArgs kvs : list any) (w : zapcore.World) :
  exists w',
    usage.extends w w'
    /\ zap.log s (design.levelOf sev) template fmtArgs kvs w
       = (match sev with design.fatal => zap.Exits | _ => zap.Returns end) w'.
Proof.
  unfold zap.log, zap.check, zapcore.Check. cbn [zapcore.Level_].
  pose proof (extends_sweetenFields s kvs w) as Hsw.
  destruct (zap.sweetenFields s kvs w) as [fields w1]. cbn [snd] in Hsw.
  destruct sev; cbn [design.levelOf];
    destruct (zapcore.Enabled (zap.core (zap.base s)) _);
    cbn -[zap.getMessage];
    try (exists w; split; [apply extends_refl | reflexivity]);
    eexists; (split; [|reflexivity]);
    (eapply extends_trans; [exact Hsw|]);
    first [apply extends_refl | rewrite Write_line; apply extends_emit].
Qed.

(** Below its threshold a leveled call of the handle does nothing. *)
Lemma log_rejected (sev : design.severity) (s : zap.SugaredLogger) (template : string)
      (fmtArgs kvs : list any) (w : zapcore.World) :
  zapcore.Enabled (zap.core (zap.base s)) (design.levelOf sev) = false ->
  sev <> design.fatal ->
  zap.log s (design.levelOf sev) template fmtArgs kvs w = zap.Returns w.
Proof.
  intros Hen Hsev. unfold zap.log. rewrite Hen.
  destruct sev; try reflexivity. now destruct Hsev.
Qed.

(** Every call form ends in one leveled call of the resolved handle. *)
Lemma emitForm_invokes (sev : design.severity) (f : usage.form) (ctx : context.Context)
      (st : State) :
  exists template fmtArgs kvs,
    usage.emitForm sev f ctx st
    = invoke (FromContext ctx st)
        (fun l => zap.log l (design.levelOf sev) template fmtArgs kvs) st.
Proof.
  destruct f as [args | format args | message kvs]; cbn [usage.emitForm].
  - destruct (tagsOf ctx) as [tags|] eqn:Ht.
    + rewrite (emitPlain_tagged sev ctx args st tags Ht), emitKV_delegates.
      eexists _, _, _. destruct sev; reflexivity.
    + rewrite (emitPlain_untagged sev ctx args st Ht).
      eexists _, _, _. destruct sev; reflexivity.
  - destruct (tagsOf ctx) as [tags|] eqn:Ht.
    + rewrite (emitFormat_tagged sev ctx format args st tags Ht), emitKV_delegates.
      eexists _, _, _. destruct sev; reflexivity.
    + rewrite (emitFormat_untagged sev ctx format args st Ht).
      eexists _, _, _. destruct sev; reflexivity.
  - rewrite emitKV_delegates. eexists _, _, _. destruct sev; reflexivity.
Qed.

Lemma setWorld_same (st : State) : setWorld st (world st) = st.
Proof. destruct st; reflexivity. Qed.

End EmissionOutcome.

(** X8. Whatever the severity, the call form and the arguments, a call
    of the emission API on a context whose resolved logger is nil panics
    before anything is written; on any other context it returns when the
    severity is below fatal and ends the process when it is fatal (also
    when the logger's level rejects the entry).  In both cases the
    registry and the tag store are as before, the clock is untouched,
    and what the process has written is only extended at the end. *)
Theorem X8_emission_outcome `{Platform} (sev : design.severity) (f : usage.form)
        (ctx : context.Context) (st : State) :
  match FromContext ctx st with
  | None => usage.emitForm sev f ctx st = Panic st
  | Some _ =>
      exists w',
        usage.extends (world st) w'
        /\ usage.emitForm sev f ctx st
           = (match sev with design.fatal => Exit | _ => Ok tt end) (setWorld st w')
  end.
Proof.
  destruct (emitForm_invokes sev f ctx st) as (template & fmtArgs & kvs & E). rewrite E.
  destruct (FromContext ctx st) as [s|]; [|reflexivity].
  destruct (log_outcome sev s template fmtArgs kvs (world st)) as (w' & Hext & Hlog).
  exists w'. split; [exact Hext|]. unfold invoke. rewrite Hlog. destruct sev; reflexivity.
Qed.

(** X9. An emission below fatal at a severity the resolved logger
    rejects leaves the whole state exactly as it was, whatever the call
    form and however malformed the key/value list: nothing is formatted,
    written or reported. *)
Theorem X9_rejected_emission_is_silent `{Platform} (sev : design.severity) (f : usage.form)
        (ctx : context.Context) (st : State) (s : zap.SugaredLogger) :
  FromContext ctx st = Some s ->
  zapcore.Enabled (zap.core (zap.base s)) (design.levelOf sev) = false ->
  sev <> design.fatal ->
  usage.emitForm sev f ctx st = Ok tt st.
Proof.
  intros Hs Hen Hsev.
  destruct (emitForm_invokes sev f ctx st) as (template & fmtArgs & kvs & E).
  rewrite E, Hs. unfold invoke. rewrite log_rejected by assumption.
  now rewrite setWorld_same.
Qed.

Lemma X9_rejected_emission_is_silent_witness :
  @usage.emitForm sample.platform design.debug
     (usage.keyValue "noise" [AString "dangling"]) context.Background (init sample.blank)
  = Ok tt (init sample.blank).
Proof.
  refine (@X9_rejected_emission_is_silent sample.platform design.debug
            (usage.keyValue "noise" [AString "dangling"]) context.Background
            (init sample.blank) (New (Some level) defaultCfg []) eq_refl eq_refl _).
  discriminate.
Defined.

(** ** The records a handle built by the factory writes *)

Section FactoryRecords.
Context `{Platform}.


Lemma New_core (lvl : option zapcore.Level) (cfg : Config) :
  design.sinkOf (zap.core (zap.base (New lvl cfg []))) = zapcore.Stdout
  /\ zap.errorOutput (zap.base (New lvl cfg [])) = zapcore.Stdout
  /\ (forall l, zapcore.Enabled (zap.core (zap.base (New lvl cfg []))) l
                = (default level lvl <=? l)%Z)
  /\ zapcore.kind (design.encoderOf (zap.core (zap.base (New lvl cfg []))))
     = (if DevMode cfg then zapcore.Console else zapcore.JSON)
  /\ zapcore.config (design.encoderOf (zap.core (zap.base (New lvl cfg []))))
     = zapcore.mkEncoderConfig (MessageKey cfg) (LevelKey cfg) (TimeKey cfg)
         "logger" "caller" "stacktrace"
         (if DevMode cfg then zapcore.LowercaseColorLevelEncoder
          else zapcore.LowercaseLevelEncoder)
  /\ zapcore.context (design.encoderOf (zap.core (zap.base (New lvl cfg []))))
     = design.baseFields cfg.
Proof.
  rewrite <- getZapFields_design. unfold New. cbn [zap.Sugar zap.base].
  assert (Hl : forall l e, zapcore.Level_Enabled e l = (e <=? l)%Z)
    by (intros; unfold zapcore.Level_Enabled; apply Z.geb_leb).
  destruct (getZapFields cfg) as [|f fs] eqn:Ef, (DevMode cfg), lvl as [lv|];
    cbn; repeat split; intros; apply Hl.
Qed.

End FactoryRecords.


(** ** Plain and formatted forms, with and without tags *)

Section PlainForms.
Context `{Platform}.

Lemma log_message (s : zap.SugaredLogger) (lvl : zapcore.Level) (template : string)
      (fmtArgs : list any) (w : zapcore.World) :
  zapcore.Enabled (zap.core (zap.base s)) lvl = true ->
  lvl <> zapcore.PanicLevel ->
  zap.log s lvl template fmtArgs [] w
  = (if (lvl =? zapcore.FatalLevel)%Z then zap.Exits else zap.Returns)
      (zapcore.emit (design.sinkOf (zap.core (zap.base s)))
         (design.lineOf (zap.core (zap.base s))
            (zapcore.mkEntry lvl (zapcore.clock w) (zap.getMessage template fmtArgs)) []) w).
Proof.
  intros Hen Hp. unfold zap.log, zap.check, zapcore.Check. cbn [zapcore.Level_].
  rewrite Hen. rewrite andb_false_r. cbn [zapcore.AddCore zap.sweetenFields].
  assert (Hp' : (lvl =? zapcore.PanicLevel)%Z = false) by (apply Z.eqb_neq; exact Hp).
  rewrite Hp'.
  destruct (lvl =? zapcore.FatalLevel)%Z; cbn -[zap.getMessage]; now rewrite Write_line.
Qed.

Lemma invoke_message (sev : design.severity) (s : zap.SugaredLogger) (template : string)
      (fmtArgs : list any) (st : State) :
  zapcore.Enabled (zap.core (zap.base s)) (design.levelOf sev) = true ->
  invoke (Some s) (fun l => zap.log l (design.levelOf sev) template fmtArgs []) st
  = (match sev with design.fatal => Exit | _ => Ok tt end)
      (setWorld st
         (zapcore.emit (design.sinkOf (zap.core (zap.base s)))
            (design.lineOf (zap.core (zap.base s))
               (zapcore.mkEntry (design.levelOf sev) (zapcore.clock (world st))
                  (zap.getMessage template fmtArgs)) [])
            (world st))).
Proof.
  intros Hen. unfold invoke.
  rewrite (log_message s _ template fmtArgs (world st) Hen (levelOf_not_panic sev)).
  rewrite levelOf_fatal. destruct sev; reflexivity.
Qed.

End PlainForms.

(** X11. Under a tag list the plain and the formatted call forms write
    the field [hashtags] twice: they hand the key-value form a list that
    already holds the pair, and the key-value form appends it again.  The
    record is the one of the message alone followed by two equal
    [hashtags] entries. *)
Theorem X11_plain_forms_repeat_hashtags `{Platform} (sev : design.severity)
        (ctx : context.Context) (st : State) (tags : slice.t) (s : zap.SugaredLogger)
        (format : string) (args : list any) :
  tagsOf ctx = Some tags ->
  FromContext ctx st = Some s ->
  zapcore.Enabled (zap.core (zap.base s)) (design.levelOf sev) = true ->
  design.emitPlain sev ctx args st
  = (match sev with design.fatal => Exit | _ => Ok tt end)
      (setWorld st
         (zapcore.emit (design.sinkOf (zap.core (zap.base s)))
            (design.withPair
               (design.withPair
                  (design.lineOf (zap.core (zap.base s))
                     (zapcore.mkEntry (design.levelOf sev) (zapcore.clock (world st))
                        (Sprint args)) [])
                  "hashtags" (AString (prepareTags (heap st) tags)))
               "hashtags" (AString (prepareTags (heap st) tags)))
            (world st)))
  /\ design.emitFormat sev ctx format args st
     = (match sev with design.fatal => Exit | _ => Ok tt end)
         (setWorld st
            (zapcore.emit (design.sinkOf (zap.core (zap.base s)))
               (design.withPair
                  (design.withPair
                     (design.lineOf (zap.core (zap.base s))
                        (zapcore.mkEntry (design.levelOf sev) (zapcore.clock (world st))
                           (Sprintf format args)) [])
                     "hashtags" (AString (prepareTags (heap st) tags)))
                  "hashtags" (AString (prepareTags (heap st) tags)))
               (world st))).
Proof.
  intros Ht Hs Hen.
  assert (Hkv : forall message,
            design.emitKV sev ctx message
              [AString tagsName; AString (prepareTags (heap st) tags)] st
            = (match sev with design.fatal => Exit | _ => Ok tt end)
                (setWorld st
                   (zapcore.emit (design.sinkOf (zap.core (zap.base s)))
                      (design.withPair
                         (design.withPair
                            (design.lineOf (zap.core (zap.base s))
                               (zapcore.mkEntry (design.levelOf sev) (zapcore.clock (world st))
                                  message) [])
                            "hashtags" (AString (prepareTags (heap st) tags)))
                         "hashtags" (AString (prepareTags (heap st) tags)))
                      (world st)))).
  { intros message.
    change [AString tagsName; AString (prepareTags (heap st) tags)]
      with (design.flatten [(tagsName, AString (prepareTags (heap st) tags))]).
    rewrite (emitKV_record sev ctx message _ st s Hs Hen), Ht.
    change [(tagsName, AString (prepareTags (heap st) tags))]
      with ([] ++ [(tagsName, AString (prepareTags (heap st) tags))]).
    rewrite lineOf_snoc. reflexivity. }
  split.
  - rewrite (emitPlain_tagged sev ctx args st tags Ht). apply Hkv.
  - rewrite (emitFormat_tagged sev ctx format args st tags Ht). apply Hkv.
Qed.

Lemma X11_plain_forms_repeat_hashtags_witness :
  @Info sample.platform
        (fst (@ContextWithTagList sample.platform context.Background ["release"]
                                  (init sample.blank)))
        [AString "up"]
        (snd (@ContextWithTagList sample.platform context.Background ["release"]
                                  (init sample.blank)))
  = Ok tt
      (mkState (Some (New (Some level) defaultCfg [])) [["release"]]
         (zapcore.mkWorld 0
            [zapcore.mkLine zapcore.JSON
               [("severity", AString "info"); ("timestamp", ATime 0);
                ("message", AString "up"); ("version", AString "0.0.0");
                ("application_name", AString "app"); ("host", AString "localhost");
                ("hashtags", AString "#release "); ("hashtags", AString "#release ")]]
            [])).
Proof.
  exact (proj1 (@X11_plain_forms_repeat_hashtags sample.platform design.info
                  (fst (@ContextWithTagList sample.platform context.Background ["release"]
                                            (init sample.blank)))
                  (snd (@ContextWithTagList sample.platform context.Background ["release"]
                                            (init sample.blank)))
                  (slice.mk 0 0 1 1) (New (Some level) defaultCfg []) "%v" [AString "up"]
                  eq_refl eq_refl eq_refl)).
Defined.

(** X12. Through a context without tags the plain and formatted forms
    leave the message to the handle: a format string without arguments is
    written as it stands, a single string argument is the message, no
    argument gives the empty message, and no field is added.  Under tags
    the package formats the message itself, so a format string without
    arguments goes through [Sprintf] all the same. *)
Theorem X12_untagged_message `{Platform} (sev : design.severity) (ctx tagged : context.Context)
        (st : State) (tags : slice.t) (s : zap.SugaredLogger) (format m : string) :
  tagsOf ctx = None ->
  FromContext ctx st = Some s ->
  zapcore.Enabled (zap.core (zap.base s)) (design.levelOf sev) = true ->
  tagsOf tagged = Some tags ->
  design.emitFormat sev ctx format [] st = usage.wrote sev s st format []
  /\ design.emitPlain sev ctx [AString m] st = usage.wrote sev s st m []
  /\ design.emitPlain sev ctx [] st = usage.wrote sev s st "" []
  /\ design.emitFormat sev tagged format [] st
     = design.emitKV sev tagged (Sprintf format [])
         [AString "hashtags"; AString (prepareTags (heap st) tags)] st.
Proof.
  intros Ht Hs Hen Htag. unfold usage.wrote.
  split.
  { rewrite (emitFormat_untagged sev ctx format [] st Ht), Hs.
    rewrite <- (invoke_message sev s format [] st Hen). destruct sev; reflexivity. }
  split.
  { rewrite (emitPlain_untagged sev ctx [AString m] st Ht), Hs.
    change m with (zap.getMessage "" [AString m]) at 2.
    rewrite <- (invoke_message sev s "" [AString m] st Hen). destruct sev; reflexivity. }
  split; [|now apply emitFormat_tagged].
  rewrite (emitPlain_untagged sev ctx [] st Ht), Hs.
  rewrite <- (invoke_message sev s "" [] st Hen). destruct sev; reflexivity.
Qed.

Lemma X12_untagged_message_witness :
  @Infof sample.platform context.Background "100%" [] (init sample.blank)
  = Ok tt
      (setWorld (init sample.blank)
         (zapcore.mkWorld 0
            [zapcore.mkLine zapcore.JSON
               [("severity", AString "info"); ("timestamp", ATime 0);
                ("message", AString "100%"); ("version", AString "0.0.0");
                ("application_name", AString "app"); ("host", AString "localhost")]]
            [])).
Proof.
  exact (proj1 (@X12_untagged_message sample.platform design.info context.Background
                  (fst family.root) (init sample.blank) (slice.mk 0 0 3 3)
                  (New (Some level) defaultCfg []) "100%" "up"
                  eq_refl eq_refl eq_refl eq_refl)).
Defined.

(** ** Initialisation and reconfiguration, end to end *)

Section Lifecycle.
Context `{Platform} `{Collaborators}.

Lemma setVersion_twice (cfg : Config) (version : string) :
  setVersion (setVersion cfg version) version = setVersion cfg version.
Proof. reflexivity. Qed.

Lemma rebuild_valid (version s : string) (lvl : zapcore.Level) (cfg : Config) (st : State) :
  UnmarshalText s = inl lvl ->
  rebuild version (AString s) (cfg, st)
  = (setVersion cfg version, SetLogger (Some (New (Some lvl) (setVersion cfg version) [])) st).
Proof. intros E. unfold rebuild, zapLevelFromString. now rewrite E. Qed.

(** A notification that is not a string, or does not parse, changes
    neither the settings nor the registry nor the tag store. *)
Lemma rebuild_invalid (version : string) (newVal : any) (cfg : Config) (st : State) :
  (forall s lvl, newVal = AString s -> UnmarshalText s <> inl lvl) ->
  exists format args,
    rebuild version newVal (cfg, st) = (cfg, safeErrorf format args st).
Proof.
  intros Hbad. unfold rebuild, zapLevelFromString.
  destruct newVal; try (eexists _, _; reflexivity).
  destruct (UnmarshalText s) as [lvl|e] eqn:E; [now destruct (Hbad s lvl eq_refl)|].
  eexists _, _. reflexivity.
Qed.

Lemma lastLevel_snoc (vals : list any) (v : any) :
  usage.lastLevel (vals ++ [v])
  = match v with
    | AString s =>
        match UnmarshalText s with
        | inl lvl => Some lvl
        | inr _ => usage.lastLevel vals
        end
    | _ => usage.lastLevel vals
    end.
Proof. unfold usage.lastLevel. rewrite fold_left_app. reflexivity. Qed.

End Lifecycle.

(** X13. Initialisation from the environment is all or nothing.  When it
    returns an error the state is exactly as before.  When it returns no
    error the registry holds a handle newly built from the loaded
    settings, at the parsed level, with the version passed by the caller
    in place of the loaded one: that version is the handle's version
    field, and an empty one leaves the handle without a version field.
    A failure to load the settings is always an error. *)
Theorem X13_InitLogger_all_or_nothing `{Platform} `{Collaborators}
        (prefix version : string) (st : State) :
  (fst (InitLogger prefix version st) <> None -> snd (InitLogger prefix version st) = st)
  /\ (fst (InitLogger prefix version st) = None ->
      exists cfg lvl h,
        InitWithPrefix prefix = inl cfg
        /\ UnmarshalText (LogLevel cfg) = inl lvl
        /\ Logger (snd (InitLogger prefix version st)) = Some h
        /\ h = New (Some lvl) (setVersion cfg version) []
        /\ design.handleFields h = design.baseFields (setVersion cfg version)
        /\ (version <> "" -> In (zap.String "version" version) (design.handleFields h))
        /\ (version = "" -> forall f, In f (design.handleFields h) ->
                                      zapcore.Key f <> "version")
        /\ (forall l, zapcore.Enabled (zap.core (zap.base h)) l = (lvl <=? l)%Z)
        /\ heap (snd (InitLogger prefix version st)) = heap st
        /\ world (snd (InitLogger prefix version st)) = world st)
  /\ (forall e, InitWithPrefix prefix = inr e -> fst (InitLogger prefix version st) <> None).
Proof.
  unfold InitLogger, zapLevelFromString.
  destruct (InitWithPrefix prefix) as [cfg|e0] eqn:Eload.
  - cbn [LogLevel setVersion].
    destruct (UnmarshalText (LogLevel cfg)) as [lvl|e1] eqn:Elvl; cbn [fst snd].
    + split; [intros Hn; now destruct Hn|]. split; [|intros e; discriminate].
      intros _. exists cfg, lvl, (New (Some lvl) (setVersion cfg version) []).
      split; [reflexivity|]. split; [exact Elvl|]. split; [reflexivity|].
      split; [reflexivity|].
      pose proof (New_fields (Some lvl) (setVersion cfg version)) as Hf.
      split; [exact Hf|]. unfold design.handleFields. rewrite Hf.
      split.
      { intros Hv. apply (proj1 (baseFields_present (setVersion cfg version))). exact Hv. }
      split.
      { intros -> f Hin Hk.
        destruct (baseFields_key (setVersion cfg "") _ f Hin Hk)
          as [(_ & _ & N)|[(N & _)|(N & _)]]; [now apply N | discriminate | discriminate]. }
      split; [|split; reflexivity].
      intros l. apply (proj1 (proj2 (proj2 (New_core (Some lvl) (setVersion cfg version))))).
    + split; [reflexivity|]. split; [discriminate|]. intros e; discriminate.
  - cbn [fst snd]. split; [reflexivity|]. split; [discriminate|]. intros e _. discriminate.
Qed.

(** X14. However many change notifications arrive, the registry ends up
    with the handle built for the last one that is a string and parses,
    from the settings with the version patched; the others leave no
    trace in the settings or the registry.  If none is valid, settings
    and registry are as before.  The tag store is never touched. *)
Theorem X14_last_valid_update_wins `{Platform} `{Collaborators} (version : string)
        (vals : list any) (cfg : Config) (st : State) :
  fst (usage.replay version vals (cfg, st))
  = match usage.lastLevel vals with Some _ => setVersion cfg version | None => cfg end
  /\ Logger (snd (usage.replay version vals (cfg, st)))
     = match usage.lastLevel vals with
       | Some lvl => Some (New (Some lvl) (setVersion cfg version) [])
       | None => Logger st
       end
  /\ heap (snd (usage.replay version vals (cfg, st))) = heap st.
Proof.
  induction vals as [|v vals IH] using rev_ind; [repeat split|].
  unfold usage.replay in *. rewrite fold_left_app. cbn [fold_left].
  destruct (fold_left (fun cs v0 => rebuild version v0 cs) vals (cfg, st)) as [cfg1 st1].
  cbn [fst snd] in IH. destruct IH as (Hcfg & Hlog & Hheap).
  rewrite lastLevel_snoc.
  assert (Hinv : (forall s lvl, v = AString s -> UnmarshalText s <> inl lvl) ->
                 usage.lastLevel vals
                 = match v with
                   | AString s =>
                       match UnmarshalText s with
                       | inl lvl => Some lvl
                       | inr _ => usage.lastLevel vals
                       end
                   | _ => usage.lastLevel vals
                   end
                 /\ fst (rebuild version v (cfg1, st1)) = cfg1
                 /\ Logger (snd (rebuild version v (cfg1, st1))) = Logger st1
                 /\ heap (snd (rebuild version v (cfg1, st1))) = heap st1).
  { intros Hbad. split.
    - destruct v as [s| | | | | | |]; try reflexivity.
      destruct (UnmarshalText s) as [lvl|e] eqn:E; [|reflexivity].
      now destruct (Hbad s lvl eq_refl).
    - destruct (rebuild_invalid version v cfg1 st1 Hbad) as (format & args & ->).
      cbn [fst snd]. unfold Logger. split; [reflexivity|]. apply safeErrorf_frame. }
  assert (Hdone : (forall s lvl, v = AString s -> UnmarshalText s <> inl lvl) ->
                  fst (rebuild version v (cfg1, st1))
                  = match match v with
                          | AString s =>
                              match UnmarshalText s with
                              | inl lvl => Some lvl
                              | inr _ => usage.lastLevel vals
                              end
                          | _ => usage.lastLevel vals
                          end
                    with Some _ => setVersion cfg version | None => cfg end
                  /\ Logger (snd (rebuild version v (cfg1, st1)))
                     = match match v with
                             | AString s =>
                                 match UnmarshalText s with
                                 | inl lvl => Some lvl
                                 | inr _ => usage.lastLevel vals
                                 end
                             | _ => usage.lastLevel vals
                             end
                       with
                       | Some lvl => Some (New (Some lvl) (setVersion cfg version) [])
                       | None => Logger st
                       end
                  /\ heap (snd (rebuild version v (cfg1, st1))) = heap st).
  { intros Hbad. destruct (Hinv Hbad) as (El & Ec & Elog & Eh).
    rewrite <- El, Ec, Elog, Eh. repeat split; assumption. }
  destruct v as [s| | | | | | |]; try (apply Hdone; intros; discriminate).
  destruct (UnmarshalText s) as [lvl|e] eqn:E.
  - rewrite (rebuild_valid version s lvl cfg1 st1 E). cbn [fst snd].
    assert (Hv : setVersion cfg1 version = setVersion cfg version).
    { rewrite Hcfg. destruct (usage.lastLevel vals); reflexivity. }
    rewrite Hv. repeat split. exact Hheap.
  - assert (Hbad : forall s' lvl', AString s = AString s' -> UnmarshalText s' <> inl lvl')
      by (intros s' lvl' [= <-]; congruence).
    exact (Hdone Hbad).
Qed.

(** X15. A change notification that is not a string, or does not parse,
    is reported through the current global logger at error level only:
    when there is no global logger, or its level rejects error entries,
    the notification leaves settings and state exactly as they were and
    nothing is written anywhere. *)
Theorem X15_invalid_update_can_go_unreported `{Platform} `{Collaborators}
        (version : string) (newVal : any) (cfg : Config) (st : State) :
  (forall s, Logger st = Some s ->
             zapcore.Enabled (zap.core (zap.base s)) zapcore.ErrorLevel = false) ->
  (forall str lvl, newVal = AString str -> UnmarshalText str <> inl lvl) ->
  rebuild version newVal (cfg, st) = (cfg, st).
Proof.
  intros Hoff Hbad.
  destruct (rebuild_invalid version newVal cfg st Hbad) as (format & args & ->).
  f_equal. unfold safeErrorf. destruct (Logger st) as [s|] eqn:Es; [|reflexivity].
  change (zap.Sugared.Errorf s format args (world st))
    with (zap.log s (design.levelOf design.error) format args [] (world st)).
  rewrite log_rejected; [apply setWorld_same | now apply Hoff | discriminate].
Qed.

Lemma X15_invalid_update_can_go_unreported_witness :
  @rebuild sample.platform (sample.collaborators []) "2.0.0" (AInt 3)
           (defaultCfg,
            SetLogger (Some (New (Some zapcore.FatalLevel) defaultCfg [])) sample.blank)
  = (defaultCfg,
     SetLogger (Some (New (Some zapcore.FatalLevel) defaultCfg [])) sample.blank).
Proof.
  refine (@X15_invalid_update_can_go_unreported sample.platform (sample.collaborators [])
            "2.0.0" (AInt 3) defaultCfg
            (SetLogger (Some (New (Some zapcore.FatalLevel) defaultCfg [])) sample.blank)
            _ _).
  - intros s [= <-]. reflexivity.
  - intros str lvl. discriminate.
Defined.

(** ** The registry over the life of the process *)

Section Registry.
Context `{Platform} `{Collaborators}.

Lemma invoke_frame (l : option zap.SugaredLogger)
      (method : zap.SugaredLogger -> zapcore.World -> zap.outcome) (st : State) :
  global (usage.stateOf (invoke l method st)) = global st
  /\ heap (usage.stateOf (invoke l method st)) = heap st.
Proof.
  unfold invoke. destruct l as [s|]; [|split; reflexivity].
  destruct (method s (world st)); split; reflexivity.
Qed.

Lemma emitForm_frame (sev : design.severity) (f : usage.form) (ctx : context.Context)
      (st : State) :
  global (usage.stateOf (usage.emitForm sev f ctx st)) = global st
  /\ heap (usage.stateOf (usage.emitForm sev f ctx st)) = heap st.
Proof.
  destruct (emitForm_invokes sev f ctx st) as (template & fmtArgs & kvs & ->).
  apply invoke_frame.
Qed.

Lemma ContextWithKV_frame (ctx : context.Context) (kvs : list any) (st : State) :
  global (usage.stateOf (ContextWithKV ctx kvs st)) = global st
  /\ heap (usage.stateOf (ContextWithKV ctx kvs st)) = heap st.
Proof.
  unfold ContextWithKV. destruct (FromContext ctx st) as [s|]; [|split; reflexivity].
  destruct (kvLoop (length kvs) (zap.Desugar s) kvs 0 [] (world st)). split; reflexivity.
Qed.

Lemma ContextWithTags_frame (ctx : context.Context) (tags : slice.t) (st : State) :
  global (snd (ContextWithTags ctx tags st)) = global st
  /\ world (snd (ContextWithTags ctx tags st)) = world st.
Proof.
  unfold ContextWithTags. destruct (tagsOf ctx) as [v|]; [|split; reflexivity].
  destruct (slice.append (heap st) v (slice.elems (heap st) tags)). split; reflexivity.
Qed.

End Registry.

(** X16. Only [SetLogger], [InitLogger] and a valid change notification
    write the registry, and the latter two always put a freshly built
    handle there.  So once the registry holds a handle, no emission, no
    context derivation, no failed initialisation and no change
    notification makes it nil: emissions and derivations leave it as it
    is, however they end. *)
Theorem X16_registry_stays_usable `{Platform} `{Collaborators} (st : State)
        (prefix version : string) (newVal : any) (cfg : Config)
        (ctx : context.Context) (tags : slice.t) (kvs : list any)
        (sev : design.severity) (f : usage.form) :
  Logger st <> None ->
  Logger (snd (InitLogger prefix version st)) <> None
  /\ Logger (snd (rebuild version newVal (cfg, st))) <> None
  /\ Logger (snd (ContextWithTags ctx tags st)) = Logger st
  /\ Logger (usage.stateOf (ContextWithKV ctx kvs st)) = Logger st
  /\ Logger (usage.stateOf (usage.emitForm sev f ctx st)) = Logger st.
Proof.
  intros Hst. unfold Logger in *.
  split.
  { unfold InitLogger. destruct (InitWithPrefix prefix); [|exact Hst].
    destruct (zapLevelFromString _) as [lvl [e|]]; [exact Hst | discriminate]. }
  split.
  { unfold rebuild. destruct newVal;
      try (cbn [snd]; rewrite (proj1 (safeErrorf_frame _ _ st)); exact Hst).
    destruct (zapLevelFromString s) as [lvl [e|]]; cbn [snd]; [|discriminate].
    rewrite (proj1 (safeErrorf_frame _ _ st)). exact Hst. }
  split; [apply ContextWithTags_frame|].
  split; [apply ContextWithKV_frame | apply emitForm_frame].
Qed.

Lemma X16_registry_stays_usable_witness :
  Logger (usage.stateOf
            (@usage.emitForm sample.platform design.fatal (usage.plain [AString "bye"])
                             context.Background (init sample.blank)))
  = Logger (init sample.blank).
Proof.
  refine (proj2 (proj2 (proj2 (proj2
            (@X16_registry_stays_usable sample.platform (sample.collaborators [])
               (init sample.blank) "APP" "1.0.0" ANil defaultCfg context.Background
               slice.nil [] design.fatal (usage.plain [AString "bye"]) _))))).
  discriminate.
Defined.

(** ** Progress of the accessors *)

Section Progress.
Import sched.

Lemma positioned_spawn (cs : list call) :
  forallb accessor cs = true -> usage.positioned (spawn cs).
Proof. intros Hacc. exists cs. split; [exact Hacc | left; reflexivity]. Qed.

Lemma positioned_step (m m' : machine) :
  Forall usage.positioned (pool m) -> step m m' -> Forall usage.positioned (pool m').
Proof.
  intros Hall [i Hexec]. unfold exec in Hexec.
  destruct (pool m !! i) as [t|] eqn:Hi; [|discriminate].
  destruct (proj1 (Forall_lookup _ _) Hall i t Hi) as (cs & Hacc & Hpos).
  destruct Hpos as [-> | [-> | [-> | [[l ->] | ->]]]]; cbn [code rheld wheld] in Hexec.
  - destruct cs as [|c cs]; [discriminate|].
    cbn [forallb] in Hacc. apply andb_true_iff in Hacc as [Hc Hcs].
    destruct c; [| |discriminate]; cbn in Hexec.
    + destruct (writer m); [discriminate|]. injection Hexec as <-. cbn [pool].
      apply Forall_insert; [exact Hall|]. exists cs. split; [exact Hcs|]. right; left. reflexivity.
    + destruct (writer m || negb (readers m =? 0)%nat); [discriminate|].
      injection Hexec as <-. cbn [pool].
      apply Forall_insert; [exact Hall|]. exists cs. split; [exact Hcs|].
      right; right; right; left. exists l. reflexivity.
  - injection Hexec as <-. cbn [pool]. apply Forall_insert; [exact Hall|].
    exists cs. split; [exact Hacc|]. right; right; left. reflexivity.
  - injection Hexec as <-. cbn [pool]. apply Forall_insert; [exact Hall|].
    exists cs. split; [exact Hacc|]. left. reflexivity.
  - injection Hexec as <-. cbn [pool]. apply Forall_insert; [exact Hall|].
    exists cs. split; [exact Hacc|]. right; right; right; right. reflexivity.
  - injection Hexec as <-. cbn [pool]. apply Forall_insert; [exact Hall|].
    exists cs. split; [exact Hacc|]. left. reflexivity.
Qed.

Lemma positioned_reachable (g : handle) (progs : list (list call)) (m : machine) :
  Forall (fun cs => forallb accessor cs = true) progs ->
  reachable (boot g progs) m -> Forall usage.positioned (pool m).
Proof.
  intros Hall Hreach.
  assert (H0 : Forall usage.positioned (pool (boot g progs))).
  { cbn [boot pool]. apply List.Forall_map. eapply Forall_impl; [exact Hall|].
    intros cs. apply positioned_spawn. }
  unfold reachable in Hreach.
  induction Hreach as [|x y z Hxy _ IH]; [exact H0|].
  apply IH. eapply positioned_step; eassumption.
Qed.

Lemma pool_split (ts : list thread) :
  (exists i t, ts !! i = Some t /\ (0 < rheld t \/ wheld t = true))
  \/ Forall (fun t => rheld t = 0 /\ wheld t = false) ts.
Proof.
  induction ts as [|t ts [(i & u & Hi & Hu)|IH]].
  - right. constructor.
  - left. exists (S i), u. split; assumption.
  - destruct (rheld t) as [|k] eqn:Er.
    + destruct (wheld t) eqn:Ew.
      * left. exists 0, t. split; [reflexivity | now right].
      * right. constructor; [now split | exact IH].
    + left. exists 0, t. split; [reflexivity | left; lia].
Qed.

Lemma busy_enabled (m : machine) (i : nat) (t : thread) :
  usage.positioned t -> 0 < rheld t \/ wheld t = true -> pool m !! i = Some t ->
  exists m', exec i m = Some m'.
Proof.
  intros (cs & _ & Hpos) Hbusy Hi. unfold exec. rewrite Hi.
  destruct Hpos as [-> | [-> | [-> | [[l ->] | ->]]]]; cbn [code rheld wheld] in *;
    try (eexists; reflexivity).
  destruct Hbusy; [lia | discriminate].
Qed.

Lemma idle_totals (ts : list thread) :
  Forall (fun t => rheld t = 0 /\ wheld t = false) ts ->
  total rheld ts = 0 /\ total holds_w ts = 0.
Proof.
  unfold total. induction 1 as [|t ts [Hr Hw] _ [IHr IHw]]; [split; reflexivity|].
  csimpl. unfold holds_w at 1. rewrite Hr, Hw. unfold id in *. split; lia.
Qed.

Lemma idle_enabled (m : machine) (i : nat) (t : thread) :
  usage.positioned t -> rheld t = 0 -> wheld t = false -> code t <> [] ->
  readers m = 0 -> writer m = false -> pool m !! i = Some t ->
  exists m', exec i m = Some m'.
Proof.
  intros (cs & Hacc & Hpos) Hr Hw Hcode Hrd Hwr Hi. unfold exec. rewrite Hi.
  destruct Hpos as [-> | [-> | [-> | [[l ->] | ->]]]]; cbn [code rheld wheld] in *;
    try discriminate.
  destruct cs as [|c cs]; [now destruct Hcode|].
  cbn [forallb] in Hacc. apply andb_true_iff in Hacc as [Hc _].
  destruct c; [| |discriminate]; cbn; rewrite Hwr, ?Hrd; cbn; eexists; reflexivity.
Qed.

End Progress.

(** X17. Goroutines that only call [Logger] and [SetLogger] never block
    each other for good: in every state they can reach, as long as one
    of them has not finished, one of them can take its next step.  A
    goroutine that has finished holds no lock, and when all have
    finished the mutex is free. *)
Theorem X17_accessors_never_deadlock (g : sched.handle) (progs : list (list sched.call))
        (m : sched.machine) :
  Forall (fun cs => forallb sched.accessor cs = true) progs ->
  sched.reachable (sched.boot g progs) m ->
  ((exists i t, sched.pool m !! i = Some t /\ sched.code t <> []) ->
   exists m', sched.step m m')
  /\ Forall (fun t => sched.code t = [] -> sched.rheld t = 0 /\ sched.wheld t = false)
            (sched.pool m)
  /\ (Forall (fun t => sched.code t = []) (sched.pool m) ->
      sched.readers m = 0 /\ sched.writer m = false).
Proof.
  intros Hall Hreach.
  pose proof (positioned_reachable g progs m Hall Hreach) as Hpos.
  assert (Hinv : sched.invariant m).
  { apply (invariant_reachable (sched.boot g progs)); [|exact Hreach].
    apply invariant_boot. eapply Forall_impl; [exact Hall|].
    intros cs. apply guarded_accessors. }
  assert (Hdone : Forall (fun t => sched.code t = [] ->
                                   sched.rheld t = 0 /\ sched.wheld t = false)
                         (sched.pool m)).
  { eapply Forall_impl; [exact Hpos|]. intros t (cs & _ & Ht) Hcode.
    destruct Ht as [-> | [-> | [-> | [[l ->] | ->]]]]; cbn in *;
      try discriminate; split; reflexivity. }
  split; [|split; [exact Hdone|]].
  - intros (i & t & Hi & Hcode).
    destruct (pool_split (sched.pool m)) as [(j & u & Hj & Hbusy)|Hidle].
    + destruct (busy_enabled m j u (proj1 (Forall_lookup _ _) Hpos j u Hj) Hbusy Hj)
        as [m' Hm'].
      exists m', j. exact Hm'.
    + destruct (idle_totals _ Hidle) as [Tr Tw].
      destruct Hinv as [Hr Hw _ _]. rewrite Tr in Hr. rewrite Tw in Hw.
      assert (Hwr : sched.writer m = false) by (destruct (sched.writer m); [discriminate | reflexivity]).
      destruct (proj1 (Forall_lookup _ _) Hidle i t Hi) as [Hrt Hwt].
      destruct (idle_enabled m i t (proj1 (Forall_lookup _ _) Hpos i t Hi) Hrt Hwt Hcode
                  Hr Hwr Hi) as [m' Hm'].
      exists m', i. exact Hm'.
  - intros Hfin.
    assert (Hidle : Forall (fun t => sched.rheld t = 0 /\ sched.wheld t = false) (sched.pool m)).
    { apply Forall_forall. intros t Hin.
      apply (proj1 (Forall_forall _ _) Hdone t Hin), (proj1 (Forall_forall _ _) Hfin t Hin). }
    destruct (idle_totals _ Hidle) as [Tr Tw]. destruct Hinv as [Hr Hw _ _].
    rewrite Tr in Hr. rewrite Tw in Hw. split; [exact Hr|].
    destruct (sched.writer m); [discriminate | reflexivity].
Qed.

Lemma X17_accessors_never_deadlock_witness :
  exists m',
    sched.step (sched.boot None [[sched.CallLogger]; [sched.CallSetLogger None]]) m'.
Proof.
  refine (proj1 (X17_accessors_never_deadlock None
                   [[sched.CallLogger]; [sched.CallSetLogger None]]
                   (sched.boot None [[sched.CallLogger]; [sched.CallSetLogger None]])
                   _ _) _).
  - repeat constructor.
  - apply rtc_refl.
  - exists 0, (sched.spawn [sched.CallLogger]). split; [reflexivity | discriminate].
Defined.

(** ** Fields, tags and emission together *)

Section EndToEnd.
Context `{Platform}.

Lemma Enabled_With (c : zapcore.Core) (fs : list zapcore.Field) (l : zapcore.Level) :
  zapcore.Enabled (zapcore.With c fs) l = zapcore.Enabled c l.
Proof. destruct c; reflexivity. Qed.

Lemma Enabled_zap_With (log : zap.Logger) (fs : list zapcore.Field) (l : zapcore.Level) :
  zapcore.Enabled (zap.core (zap.With log fs)) l = zapcore.Enabled (zap.core log) l.
Proof. destruct fs; [reflexivity | apply Enabled_With]. Qed.

Lemma encoderOf_With (c : zapcore.Core) (fs : list zapcore.Field) :
  design.encoderOf (zapcore.With c fs)
  = zapcore.mkEncoder (zapcore.kind (design.encoderOf c)) (zapcore.config (design.encoderOf c))
                      (zapcore.context (design.encoderOf c) ++ fs).
Proof. induction c as [enab enc out | inner IH lv]; [reflexivity | exact IH]. Qed.

Lemma sinkOf_With (c : zapcore.Core) (fs : list zapcore.Field) :
  design.sinkOf (zapcore.With c fs) = design.sinkOf c.
Proof. induction c as [enab enc out | inner IH lv]; [reflexivity | exact IH]. Qed.

Lemma lineOf_fields (c : zapcore.Core) (ent : zapcore.Entry) (gs : list zapcore.Field) :
  design.lineOf c ent gs
  = zapcore.mkLine (zapcore.encoding (design.lineOf c ent []))
                   (zapcore.pairs (design.lineOf c ent []) ++ zapcore.fieldPairs gs).
Proof.
  unfold design.lineOf, zapcore.EncodeEntry. cbn [zapcore.encoding zapcore.pairs].
  f_equal. cbn [zapcore.fieldPairs map]. rewrite app_nil_r. now rewrite <- !app_assoc.
Qed.

(** The line of a logger enriched with fields: the line of the logger
    itself, then those fields, then the fields of the call. *)
Lemma lineOf_zap_With (log : zap.Logger) (fs gs : list zapcore.Field) (ent : zapcore.Entry) :
  design.lineOf (zap.core (zap.With log fs)) ent gs
  = zapcore.mkLine (zapcore.encoding (design.lineOf (zap.core log) ent []))
                   (zapcore.pairs (design.lineOf (zap.core log) ent [])
                    ++ zapcore.fieldPairs fs ++ zapcore.fieldPairs gs).
Proof.
  destruct fs as [|f fs]; [apply lineOf_fields|].
  unfold zap.With. cbn [zap.core]. generalize (f :: fs). intros fq.
  unfold design.lineOf, zapcore.EncodeEntry. rewrite encoderOf_With.
  cbn [zapcore.encoding zapcore.pairs zapcore.kind zapcore.config zapcore.context].
  f_equal. unfold zapcore.fieldPairs. rewrite !map_app. cbn [map].
  rewrite app_nil_r. now rewrite <- !app_assoc.
Qed.

Lemma sinkOf_zap_With (log : zap.Logger) (fs : list zapcore.Field) :
  design.sinkOf (zap.core (zap.With log fs)) = design.sinkOf (zap.core log).
Proof. destruct fs; [reflexivity | apply sinkOf_With]. Qed.

Lemma ContextWithKV_flatten (ctx : context.Context) (qs : list (string * any)) (st : State)
      (s : zap.SugaredLogger) :
  FromContext ctx st = Some s ->
  ContextWithKV ctx (design.flatten qs) st
  = Ok (ToContext ctx (Some (zap.Sugar (zap.With (zap.Desugar s) (design.fieldsOf qs))))) st.
Proof.
  intros Hs. rewrite (ContextWithKV_design ctx _ st s Hs).
  pose proof (appliedFields_flatten_app qs []) as Ea.
  pose proof (skippedPairs_flatten_app qs []) as Es.
  rewrite app_nil_r in Ea, Es. rewrite Ea, Es.
  change (design.appliedFields []) with (@nil zapcore.Field).
  change (design.skippedPairs []) with 0.
  rewrite app_nil_r. cbn [Nat.iter nat_rect]. now rewrite setWorld_same.
Qed.

Lemma ContextWithTagList_fresh (ctx : context.Context) (ts : list string) (st : State) :
  tagsOf ctx = None ->
  ContextWithTagList ctx ts st
  = (context.WithValue ctx loggerContextTags
       (context.ValTags (fst (slice.literal (heap st) ts))),
     setHeap st (snd (slice.literal (heap st) ts))).
Proof.
  intros Ht. unfold ContextWithTagList. destruct (slice.literal (heap st) ts) as [s h].
  unfold ContextWithTags. now rewrite Ht.
Qed.

End EndToEnd.

(** X18. Fields and tags attached to a context come out together.  On a
    context without tags whose resolved logger accepts the severity,
    deriving with well-formed pairs and then with tags, and emitting
    well-formed pairs through the result, writes one record: the record
    of the resolved logger (its own fields included), then the derived
    pairs, then the caller's pairs, then [hashtags] with the rendered
    tags.  Deriving in the other order, tags first, gives the same
    outcome. *)
Theorem X18_fields_then_tags_then_emit `{Platform} (sev : design.severity)
        (ctx : context.Context) (st : State) (s : zap.SugaredLogger)
        (qs ps : list (string * any)) (ts : list string) (message : string) :
  tagsOf ctx = None ->
  FromContext ctx st = Some s ->
  zapcore.Enabled (zap.core (zap.base s)) (design.levelOf sev) = true ->
  exists c1 c2 st2 c1' st1' c2',
    ContextWithKV ctx (design.flatten qs) st = Ok c1 st
    /\ ContextWithTagList c1 ts st = (c2, st2)
    /\ design.emitKV sev c2 message (design.flatten ps) st2
       = (match sev with design.fatal => Exit | _ => Ok tt end)
           (setWorld st2
              (zapcore.emit (design.sinkOf (zap.core (zap.base s)))
                 (zapcore.mkLine
                    (zapcore.encoding
                       (design.lineOf (zap.core (zap.base s))
                          (zapcore.mkEntry (design.levelOf sev) (zapcore.clock (world st))
                             message) []))
                    (zapcore.pairs
                       (design.lineOf (zap.core (zap.base s))
                          (zapcore.mkEntry (design.levelOf sev) (zapcore.clock (world st))
                             message) [])
                     ++ zapcore.fieldPairs (design.fieldsOf qs)
                     ++ zapcore.fieldPairs (design.fieldsOf ps)
                     ++ [("hashtags", AString (design.renderTags ts))]))
                 (world st)))
    /\ ContextWithTagList ctx ts st = (c1', st1')
    /\ ContextWithKV c1' (design.flatten qs) st1' = Ok c2' st1'
    /\ design.emitKV sev c2' message (design.flatten ps) st1'
       = design.emitKV sev c2 message (design.flatten ps) st2.
Proof.
  intros Ht Hs Hen.
  set (s' := zap.Sugar (zap.With (zap.Desugar s) (design.fieldsOf qs))).
  set (tags := fst (slice.literal (heap st) ts)).
  set (st2 := setHeap st (snd (slice.literal (heap st) ts))).
  assert (Hen' : zapcore.Enabled (zap.core (zap.base s')) (design.levelOf sev) = true)
    by (unfold s'; cbn [zap.Sugar zap.base zap.Desugar]; now rewrite Enabled_zap_With).
  assert (Hr : prepareTags (heap st2) tags = design.renderTags ts).
  { rewrite prepareTags_elems. f_equal. apply elems_literal. }
  assert (Hline : forall fs,
            design.lineOf (zap.core (zap.base s'))
              (zapcore.mkEntry (design.levelOf sev) (zapcore.clock (world st)) message) fs
            = zapcore.mkLine
                (zapcore.encoding
                   (design.lineOf (zap.core (zap.base s))
                      (zapcore.mkEntry (design.levelOf sev) (zapcore.clock (world st))
                         message) []))
                (zapcore.pairs
                   (design.lineOf (zap.core (zap.base s))
                      (zapcore.mkEntry (design.levelOf sev) (zapcore.clock (world st))
                         message) [])
                 ++ zapcore.fieldPairs (design.fieldsOf qs) ++ zapcore.fieldPairs fs)).
  { intros fs. unfold s'. cbn [zap.Sugar zap.base zap.Desugar]. apply lineOf_zap_With. }
  assert (Hsink : design.sinkOf (zap.core (zap.base s')) = design.sinkOf (zap.core (zap.base s)))
    by (unfold s'; cbn [zap.Sugar zap.base zap.Desugar]; apply sinkOf_zap_With).
  assert (Hemit : forall c st',
            tagsOf c = Some tags -> FromContext c st' = Some s' ->
            heap st' = heap st2 -> world st' = world st ->
            design.emitKV sev c message (design.flatten ps) st'
            = (match sev with design.fatal => Exit | _ => Ok tt end)
                (setWorld st'
                   (zapcore.emit (design.sinkOf (zap.core (zap.base s)))
                      (zapcore.mkLine
                         (zapcore.encoding
                            (design.lineOf (zap.core (zap.base s))
                               (zapcore.mkEntry (design.levelOf sev)
                                  (zapcore.clock (world st)) message) []))
                         (zapcore.pairs
                            (design.lineOf (zap.core (zap.base s))
                               (zapcore.mkEntry (design.levelOf sev)
                                  (zapcore.clock (world st)) message) [])
                          ++ zapcore.fieldPairs (design.fieldsOf qs)
                          ++ zapcore.fieldPairs (design.fieldsOf ps)
                          ++ [("hashtags", AString (design.renderTags ts))]))
                      (world st)))).
  { intros c st' Hc Hf Hh Hw.
    rewrite (emitKV_record sev c message ps st' s' Hf Hen'), Hc, Hh, Hr, Hw, Hsink, Hline.
    unfold design.withPair. cbn [zapcore.encoding zapcore.pairs].
    now rewrite <- !app_assoc. }
  exists (ToContext ctx (Some s')),
         (context.WithValue (ToContext ctx (Some s')) loggerContextTags (context.ValTags tags)),
         st2,
         (context.WithValue ctx loggerContextTags (context.ValTags tags)),
         st2,
         (ToContext (context.WithValue ctx loggerContextTags (context.ValTags tags)) (Some s')).
  split; [now apply ContextWithKV_flatten|].
  split; [now apply ContextWithTagList_fresh|].
  split; [apply Hemit; reflexivity|].
  split; [now apply ContextWithTagList_fresh|].
  split; [apply ContextWithKV_flatten; exact Hs|].
  rewrite !Hemit by reflexivity. reflexivity.
Qed.

Lemma X18_fields_then_tags_then_emit_witness :
  exists c2 st2,
    @ContextWithTagList sample.platform
       (ToContext context.Background
          (Some (zap.Sugar (zap.With (zap.Desugar (New (Some level) defaultCfg []))
                                     [zap.Any "request" (AInt 7)]))))
       ["release"] (init sample.blank) = (c2, st2)
    /\ @InfoKV sample.platform c2 "started" [AString "port"; AInt 8080] st2
       = Ok tt
           (setWorld st2
              (zapcore.mkWorld 0
                 [zapcore.mkLine zapcore.JSON
                    [("severity", AString "info"); ("timestamp", ATime 0);
                     ("message", AString "started"); ("version", AString "0.0.0");
                     ("application_name", AString "app"); ("host", AString "localhost");
                     ("request", AInt 7); ("port", AInt 8080);
                     ("hashtags", AString "#release ")]]
                 [])).
Proof.
  destruct (@X18_fields_then_tags_then_emit sample.platform design.info context.Background
              (init sample.blank) (New (Some level) defaultCfg [])
              [("request", AInt 7)] [("port", AInt 8080)] ["release"] "started"
              eq_refl eq_refl eq_refl)
    as (c1 & c2 & st2 & _ & _ & _ & E1 & E2 & E3 & _).
  injection E1 as <-. exists c2, st2. split; [exact E2 | exact E3].
Defined.

(** X19. When the global logger accepts error entries, a change
    notification that does not parse, or is not a string, is reported by
    exactly one error record written through that logger, with its
    fields and the formatted text as message; settings, registry and tag
    store stay as they were. *)
Theorem X19_invalid_update_is_reported `{Platform} `{Collaborators} (version bad e : string)
        (other : any) (cfg : Config) (st : State) (s : zap.SugaredLogger) :
  Logger st = Some s ->
  zapcore.Enabled (zap.core (zap.base s)) zapcore.ErrorLevel = true ->
  UnmarshalText bad = inr e ->
  (forall str, other <> AString str) ->
  rebuild version (AString bad) (cfg, st)
  = (cfg,
     setWorld st
       (zapcore.emit (design.sinkOf (zap.core (zap.base s)))
          (design.lineOf (zap.core (zap.base s))
             (zapcore.mkEntry zapcore.ErrorLevel (zapcore.clock (world st))
                (Sprintf "Failed to unmarshal log level: %s; err: %v"
                         [AString bad; AError e])) [])
          (world st)))
  /\ rebuild version other (cfg, st)
     = (cfg,
        setWorld st
          (zapcore.emit (design.sinkOf (zap.core (zap.base s)))
             (design.lineOf (zap.core (zap.base s))
                (zapcore.mkEntry zapcore.ErrorLevel (zapcore.clock (world st))
                   (Sprintf "Failed to cast newVal to string, got type %T" [other])) [])
             (world st))).
Proof.
  intros Hs Hen Hbad Hother.
  assert (Hsafe : forall format args,
            String.eqb format "" = false -> args <> [] ->
            safeErrorf format args st
            = setWorld st
                (zapcore.emit (design.sinkOf (zap.core (zap.base s)))
                   (design.lineOf (zap.core (zap.base s))
                      (zapcore.mkEntry zapcore.ErrorLevel (zapcore.clock (world st))
                         (Sprintf format args)) [])
                   (world st))).
  { intros format args Hf Ha. unfold safeErrorf. rewrite Hs. unfold zap.Sugared.Errorf.
    rewrite (log_message s zapcore.ErrorLevel format args (world st) Hen) by discriminate.
    cbn [Z.eqb zapcore.ErrorLevel zapcore.FatalLevel Pos.eqb zap.world_of].
    unfold zap.getMessage. destruct args; [now destruct Ha|]. now rewrite Hf. }
  split.
  - unfold rebuild, zapLevelFromString. rewrite Hbad. f_equal.
    apply Hsafe; [reflexivity | discriminate].
  - unfold rebuild. destruct other; try (now destruct (Hother s0));
      (f_equal; apply Hsafe; [reflexivity | discriminate]).
Qed.

Lemma X19_invalid_update_is_reported_witness :
  zapcore.stdout
    (world (snd (@rebuild sample.platform (sample.collaborators []) "2.0.0" (AString "loud")
                          (defaultCfg, init sample.blank))))
  = [zapcore.mkLine zapcore.JSON
       [("severity", AString "error"); ("timestamp", ATime 0);
        ("message",
         AString ("Failed to unmarshal log level: loud; err: unrecognized level: "
                  +:+ sample.quote +:+ "loud" +:+ sample.quote));
        ("version", AString "0.0.0"); ("application_name", AString "app");
        ("host", AString "localhost")]].
Proof.
  rewrite (proj1 (@X19_invalid_update_is_reported sample.platform (sample.collaborators [])
                    "2.0.0" "loud" _ (AInt 1) defaultCfg (init sample.blank)
                    (New (Some level) defaultCfg []) eq_refl eq_refl eq_refl
                    ltac:(intros str; discriminate))).
  reflexivity.
Defined.
